(** * crud-route-builder: route composition and middleware chaining

    A shallow embedding of [src/helpers.js] and [src/index.js] and the
    properties of the route validator, the middleware resolver, the result
    dispatcher, the route builder and the five default actions. *)

From Stdlib Require Import List String Ascii Bool Arith ZArith QArith Lia.
Import ListNotations.
Local Open Scope string_scope.
Local Open Scope Z_scope.

(** ** JavaScript numbers obtained from strings

    [Number(s)] and [isNaN(s)] on a string follow the StringToNumber grammar:
    optional white space around a decimal literal (sign, fraction, exponent),
    [Infinity], or an unsigned 0x / 0o / 0b literal; the empty string is 0.
    A string is kept as the bytes of its UTF-8 encoding, so a white space
    character is one, two or three bytes long. The value of a literal is
    rounded to the nearest binary64, ties to even, and overflows to
    [Infinity]; [Fin q] carries the binary64 as the rational it is, and
    [NegZero] is -0. *)

Inductive jsnum : Type :=
| NaN
| PInf
| NInf
| NegZero
| Fin (q : Q).

(** TAB, LF, VT, FF, CR and SP. *)
Definition isWhiteSpace (a : ascii) : bool :=
  let n := nat_of_ascii a in
  ((9 <=? n) && (n <=? 13))%nat || (n =? 32)%nat.

(** U+00A0, as C2 A0. *)
Definition isWhiteSpace2 (a b : ascii) : bool :=
  ((nat_of_ascii a =? 194) && (nat_of_ascii b =? 160))%nat.

(** U+1680 (E1 9A 80); U+2000 to U+200A, U+2028, U+2029 and U+202F
    (E2 80 80 to 8A, A8, A9, AF); U+205F (E2 81 9F); U+3000 (E3 80 80);
    U+FEFF (EF BB BF). *)
Definition isWhiteSpace3 (a b c : ascii) : bool :=
  let x := nat_of_ascii a in
  let y := nat_of_ascii b in
  let z := nat_of_ascii c in
  ((x =? 225) && (y =? 154) && (z =? 128)
   || (x =? 226) && (y =? 128)
      && ((128 <=? z) && (z <=? 138) || (z =? 168) || (z =? 169) || (z =? 175))
   || (x =? 226) && (y =? 129) && (z =? 159)
   || (x =? 227) && (y =? 128) && (z =? 128)
   || (x =? 239) && (y =? 187) && (z =? 191))%nat.

Definition isDigit (a : ascii) : bool :=
  let n := nat_of_ascii a in ((48 <=? n) && (n <=? 57))%nat.

Definition digitVal (a : ascii) : Z := Z.of_nat (nat_of_ascii a) - 48.

(** Value of a hexadecimal digit, if it is one. *)
Definition hexVal (a : ascii) : option Z :=
  let n := nat_of_ascii a in
  if ((48 <=? n) && (n <=? 57))%nat then Some (Z.of_nat n - 48)
  else if ((97 <=? n) && (n <=? 102))%nat then Some (Z.of_nat n - 87)
  else if ((65 <=? n) && (n <=? 70))%nat then Some (Z.of_nat n - 55)
  else None.

Fixpoint dropWhile {A} (p : A -> bool) (l : list A) : list A :=
  match l with
  | [] => []
  | x :: t => if p x then dropWhile p t else l
  end.

Fixpoint takeWhile {A} (p : A -> bool) (l : list A) : list A :=
  match l with
  | [] => []
  | x :: t => if p x then x :: takeWhile p t else []
  end.

(** The white space at the start taken off. *)
Fixpoint trimStart (l : list ascii) : list ascii :=
  match l with
  | [] => []
  | a :: t =>
      if isWhiteSpace a then trimStart t
      else
        match t with
        | [] => l
        | b :: t2 =>
            if isWhiteSpace2 a b then trimStart t2
            else
              match t2 with
              | [] => l
              | c :: t3 => if isWhiteSpace3 a b c then trimStart t3 else l
              end
        end
  end.

(** The same on reversed bytes: the white space at the end of a string. *)
Fixpoint trimEnd_rev (l : list ascii) : list ascii :=
  match l with
  | [] => []
  | a :: t =>
      if isWhiteSpace a then trimEnd_rev t
      else
        match t with
        | [] => l
        | b :: t2 =>
            if isWhiteSpace2 b a then trimEnd_rev t2
            else
              match t2 with
              | [] => l
              | c :: t3 => if isWhiteSpace3 c b a then trimEnd_rev t3 else l
              end
        end
  end.

Definition trim (l : list ascii) : list ascii :=
  rev (trimEnd_rev (rev (trimStart l))).

(** Digits in base [b], most significant first; [None] on a foreign digit. *)
Fixpoint radixValue (b : Z) (acc : Z) (l : list ascii) : option Z :=
  match l with
  | [] => Some acc
  | a :: t =>
      match hexVal a with
      | Some d => if d <? b then radixValue b (acc * b + d) t else None
      | None => None
      end
  end.

Definition decimalValue (l : list ascii) : Z :=
  fold_left (fun acc a => acc * 10 + digitVal a) l 0.

(** [num / den] rounded to the nearest integer, a tie to the even one. *)
Definition halfEven (num den : Z) : Z :=
  let q := num / den in
  match 2 * (num mod den) ?= den with
  | Lt => q
  | Gt => q + 1
  | Eq => if Z.even q then q else q + 1
  end.

(** The binary64 nearest to [n / d], for positive [n] and [d]: [m * 2 ^ e]
    with [m] of 53 bits at most and [e] from -1074 to 971, or [Infinity]. *)
Definition binary64_pos (n d : Z) : jsnum :=
  let k := Z.log2 n - Z.log2 d in
  let above := if 0 <=? k then d * 2 ^ k <=? n else d <=? n * 2 ^ (- k) in
  let e := Z.max ((if above then k else k - 1) - 52) (-1074) in
  let m := if 0 <=? e then halfEven n (d * 2 ^ e)
           else halfEven (n * 2 ^ (- e)) d in
  if (971 <? e) || ((e =? 971) && (m =? 2 ^ 53)) then PInf
  else if 0 <=? e then Fin (inject_Z (m * 2 ^ e))
  else Fin (Qred (Qmake m (Z.to_pos (2 ^ (- e))))).

(** The Number value of a rational that is not negative. *)
Definition binary64 (q : Q) : jsnum :=
  match Qnum q with
  | Zpos n => binary64_pos (Zpos n) (Zpos (Qden q))
  | _ => Fin 0
  end.

(** An optional sign: whether it is a minus, and what follows it. *)
Definition signOf (l : list ascii) : bool * list ascii :=
  match l with
  | a :: r =>
      if Ascii.eqb a "+" then (false, r)
      else if Ascii.eqb a "-" then (true, r)
      else (false, l)
  | [] => (false, l)
  end.

(** ExponentPart, or nothing: the power of ten it denotes. *)
Definition exponentPart (l : list ascii) : option Z :=
  match l with
  | [] => Some 0
  | e :: r =>
      if (Ascii.eqb e "e" || Ascii.eqb e "E")%bool then
        let '(neg, ds) := signOf r in
        match ds with
        | [] => None
        | _ => if forallb isDigit ds
               then Some (if neg then - decimalValue ds else decimalValue ds)
               else None
        end
      else None
  end.

(** StrUnsignedDecimalLiteral without [Infinity]: integer digits, then
    possibly a dot and fraction digits, then possibly an exponent; at least
    one digit before the exponent. The value is the one the literal denotes,
    before rounding. *)
Definition unsignedDecimal (l : list ascii) : option Q :=
  let ip := takeWhile isDigit l in
  let r := dropWhile isDigit l in
  let '(fp, r') :=
    match r with
    | a :: r1 =>
        if Ascii.eqb a "." then (takeWhile isDigit r1, dropWhile isDigit r1)
        else ([], r)
    | [] => ([], r)
    end in
  match (ip ++ fp)%list with
  | [] => None
  | ds =>
      match exponentPart r' with
      | Some e =>
          let k := Z.of_nat (List.length fp) in
          Some (Qred (inject_Z (decimalValue ds) * Qpower (10 # 1) (e - k)))
      | None => None
      end
  end.

Definition Infinity_chars : list ascii := list_ascii_of_string "Infinity".

Definition list_ascii_eqb (x y : list ascii) : bool :=
  String.eqb (string_of_list_ascii x) (string_of_list_ascii y).

Definition strUnsigned (l : list ascii) : jsnum :=
  if list_ascii_eqb l Infinity_chars then PInf
  else match unsignedDecimal l with
       | Some q => binary64 q
       | None => NaN
       end.

Definition negate (n : jsnum) : jsnum :=
  match n with
  | NaN => NaN
  | PInf => NInf
  | NInf => PInf
  | NegZero => Fin 0
  | Fin q => if Qeq_bool q 0 then NegZero else Fin (Qred (- q))
  end.

(** 0x, 0o and 0b literals; [None] when the string does not start as one. *)
Definition nonDecimal (l : list ascii) : option jsnum :=
  match l with
  | a :: x :: ds =>
      let radix :=
        if (Ascii.eqb x "x" || Ascii.eqb x "X")%bool then Some 16
        else if (Ascii.eqb x "o" || Ascii.eqb x "O")%bool then Some 8
        else if (Ascii.eqb x "b" || Ascii.eqb x "B")%bool then Some 2
        else None in
      match (if Ascii.eqb a "0" then radix else None) with
      | Some b =>
          match ds with
          | [] => Some NaN
          | _ => match radixValue b 0 ds with
                 | Some v => Some (binary64 (inject_Z v))
                 | None => Some NaN
                 end
          end
      | None => None
      end
  | _ => None
  end.

(** [Number(s)] for a string [s]. *)
Definition Number (s : string) : jsnum :=
  let l := trim (list_ascii_of_string s) in
  match l with
  | [] => Fin 0
  | _ =>
      match nonDecimal l with
      | Some n => n
      | None =>
          let '(neg, r) := signOf l in
          if neg then negate (strUnsigned r) else strUnsigned r
      end
  end.

(** [isNaN(s)] for a string [s]. *)
Definition isNaN (s : string) : bool :=
  match Number s with
  | NaN => true
  | _ => false
  end.


(** ** Values held by the fields of a route object

    A function value is an ordinary function, declared with [function] or
    as an arrow, and has an identity; [emptyMiddleware] is one fixed function
    of [helpers.js], every other function is the caller's, with the handler it
    runs as. Async and generator functions, which carry another
    [{}.toString] tag than [[object Function]], are not among the values. A
    [String] object differs from the primitive string of the same
    characters. *)

Definition doc : Type := list (string * string).

(** What a data-access call resolves with. *)
Inductive data : Type :=
| DNull
| DDoc (d : doc)
| DArray (l : list doc).

(** A JS [Error]: [status] is set by [Err] only. *)
Record error : Type := mkError { status : option Z; message : string }.

Record request : Type := mkRequest {
  query : list (string * string);
  params : list (string * string);
  body : doc;
  crbResult : option data
}.

Record response : Type := mkResponse {
  headers : list (string * nat);
  sent : list data
}.

Record ctx : Type := mkCtx { req : request; res : response }.

(** What a handler did with [next]: called it, called it with an error,
    or returned without calling it. *)
Inductive signal : Type :=
| SNext
| SNextErr (e : error)
| SEnd.

Definition handler : Type := ctx -> ctx * signal.

Inductive fn : Type :=
| FnEmptyMiddleware
| FnUser (id : nat) (body : handler).

Inductive value : Type :=
| VUndefined
| VNull
| VBool (b : bool)
| VNum (n : jsnum)
| VStr (s : string)
| VStringObj (ref : nat) (s : string)
| VFun (f : fn)
| VObj (ref : nat).

Definition fn_eqb (f g : fn) : bool :=
  match f, g with
  | FnEmptyMiddleware, FnEmptyMiddleware => true
  | FnUser i _, FnUser j _ => Nat.eqb i j
  | _, _ => false
  end.

Definition jsnum_eqb (a b : jsnum) : bool :=
  match a, b with
  | PInf, PInf => true
  | NInf, NInf => true
  | NegZero, NegZero => true
  | NegZero, Fin q => Qeq_bool q 0
  | Fin p, NegZero => Qeq_bool p 0
  | Fin p, Fin q => Qeq_bool p q
  | _, _ => false
  end.

(** [a === b] *)
Definition strict_eq (a b : value) : bool :=
  match a, b with
  | VUndefined, VUndefined => true
  | VNull, VNull => true
  | VBool x, VBool y => Bool.eqb x y
  | VNum x, VNum y => jsnum_eqb x y
  | VStr x, VStr y => String.eqb x y
  | VStringObj r1 _, VStringObj r2 _ => Nat.eqb r1 r2
  | VFun f, VFun g => fn_eqb f g
  | VObj r1, VObj r2 => Nat.eqb r1 r2
  | _, _ => false
  end.

(** ToBoolean *)
Definition truthy (v : value) : bool :=
  match v with
  | VUndefined | VNull => false
  | VBool b => b
  | VNum NaN => false
  | VNum NegZero => false
  | VNum (Fin q) => negb (Qeq_bool q 0)
  | VNum _ => true
  | VStr s => negb (String.eqb s "")
  | VStringObj _ _ | VFun _ | VObj _ => true
  end.

Definition typeof (v : value) : string :=
  match v with
  | VUndefined => "undefined"
  | VNull => "object"
  | VBool _ => "boolean"
  | VNum _ => "number"
  | VStr _ => "string"
  | VStringObj _ _ => "object"
  | VFun _ => "function"
  | VObj _ => "object"
  end.

Definition instanceof_String (v : value) : bool :=
  match v with
  | VStringObj _ _ => true
  | _ => false
  end.

(** [{}.toString.call(v)] *)
Definition toString_call (v : value) : string :=
  match v with
  | VUndefined => "[object Undefined]"
  | VNull => "[object Null]"
  | VBool _ => "[object Boolean]"
  | VNum _ => "[object Number]"
  | VStr _ | VStringObj _ _ => "[object String]"
  | VFun _ => "[object Function]"
  | VObj _ => "[object Object]"
  end.

(** [array.indexOf(v)] on an array of strings: strict equality, -1 if absent. *)
Fixpoint indexOf_from (l : list string) (v : value) (i : Z) : Z :=
  match l with
  | [] => -1
  | x :: t => if strict_eq (VStr x) v then i else indexOf_from t v (i + 1)
  end.

Definition indexOf (l : list string) (v : value) : Z := indexOf_from l v 0.

(** ** helpers.js *)

Definition Err (st : Z) (msg : string) : error :=
  {| status := Some st; message := msg |}.

(** The source returns the falsy argument itself instead of [false]; only
    the truth value is ever used. *)
Definition isFunction (functionToCheck : value) : bool :=
  truthy functionToCheck
  && String.eqb (toString_call functionToCheck) "[object Function]".

Definition emptyMiddleware : value := VFun FnEmptyMiddleware.

Record RouteObject : Type := Route {
  method : value;
  route : value;
  function : value
}.

Definition extractMiddleware (routes : list RouteObject) (method0 route0 : value)
  : value :=
  let middleware :=
    filter (fun r => strict_eq (method r) method0 && strict_eq (route r) route0)
           routes in
  if (0 <? List.length middleware)%nat
  then match middleware with
       | r :: _ => function r
       | [] => VUndefined
       end
  else emptyMiddleware.

Definition res_send (d : data) (c : ctx) : ctx :=
  {| req := req c;
     res := {| headers := headers (res c); sent := (sent (res c) ++ [d])%list |} |}.

Definition res_header (name : string) (v : nat) (c : ctx) : ctx :=
  {| req := req c;
     res := {| headers := (name, v) :: headers (res c); sent := sent (res c) |} |}.

Definition set_crbResult (d : data) (c : ctx) : ctx :=
  {| req := {| query := query (req c); params := params (req c);
               body := body (req c); crbResult := Some d |};
     res := res c |}.

Definition sendCrbResult (afterMiddleware : value) (d : data) : handler :=
  fun c =>
    if negb (truthy afterMiddleware) || strict_eq afterMiddleware emptyMiddleware
    then (res_send d c, SEnd)
    else (set_crbResult d c, SNext).

(** ** index.js: validation *)

(** A computation that returns or throws. *)
Inductive result (E A : Type) : Type :=
| Ok (a : A)
| Throw (e : E).
Arguments Ok {E A} a.
Arguments Throw {E A} e.

Definition allowedMethods : list string := ["get"; "post"; "put"; "delete"].

(** The condition under which [validateRoutes] throws at [r]. *)
Definition invalidRoute (r : RouteObject) : bool :=
  (indexOf allowedMethods (method r) =? -1)
  || negb (String.eqb (typeof (route r)) "string" || instanceof_String (route r))
  || negb (isFunction (function r)).

Fixpoint validateRoutes (routes : list RouteObject) : result string unit :=
  match routes with
  | [] => Ok tt
  | r :: rest =>
      if invalidRoute r then Throw "Invalid Route object"
      else validateRoutes rest
  end.

(** ** index.js: the List action's reading of the query string

    [req.query] is an object with string values; it is kept as its entries in
    [Object.keys] order. *)

Fixpoint get {A} (o : list (string * A)) (k : string) : option A :=
  match o with
  | [] => None
  | (k', v) :: t => if String.eqb k' k then Some v else get t k
  end.

(** [o[k] = v] *)
Fixpoint set {A} (o : list (string * A)) (k : string) (v : A)
  : list (string * A) :=
  match o with
  | [] => [(k, v)]
  | (k', v') :: t =>
      if String.eqb k' k then (k', v) :: t else (k', v') :: set t k v
  end.

Definition Object_keys {A} (o : list (string * A)) : list string := map fst o.

Definition includes (l : list string) (x : string) : bool :=
  existsb (String.eqb x) l.

(** [s.toLowerCase()], as far as the comparison with "true" and "false"
    needs it: the letters A to Z are lowered, and no character outside them
    has one of the letters of these two words as its lower case. *)
Definition lowerChar (a : ascii) : ascii :=
  let n := nat_of_ascii a in
  if ((65 <=? n) && (n <=? 90))%nat then ascii_of_nat (n + 32) else a.

Fixpoint toLowerCase (s : string) : string :=
  match s with
  | EmptyString => EmptyString
  | String a t => String (lowerChar a) (toLowerCase t)
  end.

Inductive filterValue : Type :=
| FNumber (n : jsnum)
| FBool (b : bool)
| FRegExp (pattern flags : string).

Definition TypeError (msg : string) : error :=
  {| status := None; message := msg |}.

(** [i >= bound] and [i <= bound] for an index and a query-string value:
    the string is converted to a number, and NaN compares false. *)
Definition index_ge (i : nat) (bound : string) : bool :=
  match Number bound with
  | NaN => false
  | PInf => false
  | NInf => true
  | NegZero => true
  | Fin q => Qle_bool q (inject_Z (Z.of_nat i))
  end.

Definition index_le (i : nat) (bound : string) : bool :=
  match Number bound with
  | NaN => false
  | PInf => true
  | NInf => false
  | NegZero => (i =? 0)%nat
  | Fin q => Qle_bool (inject_Z (Z.of_nat i)) q
  end.

(** [array.filter((o, i) => p i)] with the running index from [i]. *)
Fixpoint filter_index {A} (p : nat -> bool) (i : nat) (l : list A) : list A :=
  match l with
  | [] => []
  | x :: t => if p i then x :: filter_index p (S i) t else filter_index p (S i) t
  end.

(** The [_sort] / [_order] block: the argument given to [query.sort], if any. *)
Definition sortOf (q : list (string * string)) : option (string * Z) :=
  match get q "_sort", get q "_order" with
  | Some s, Some o =>
      if truthy (VStr s) && truthy (VStr o) then
        if String.eqb o "ASC" then Some (s, 1)
        else if String.eqb o "DESC" then Some (s, -1)
        else None
      else None
  | _, _ => None
  end.

(** The [_start] / [_end] block. *)
Definition slice (q : list (string * string)) (l : list doc) : list doc :=
  match get q "_start", get q "_end" with
  | Some s, Some e => filter_index (fun i => index_ge i s && index_le i e) 0%nat l
  | _, _ => l
  end.

(** What a data-access call does: resolves, rejects, or throws at once. *)
Inductive outcome (A : Type) : Type :=
| Resolved (a : A)
| Rejected (e : error)
| Threw (e : error).
Arguments Resolved {A} a.
Arguments Rejected {A} e.
Arguments Threw {A} e.

(** The Mongoose model, as far as the handlers use it. *)
Record Resource : Type := mkResource {
  schema_paths : list string;
  find_exec : list (string * filterValue) -> option (string * Z)
              -> outcome (list doc);
  findOne_exec : option string -> outcome data;
  findByIdAndUpdate : option string -> doc -> outcome data;
  save : doc -> outcome data;
  find_remove_exec : option string -> outcome data
}.

Inductive action : Type := getAll | getSingle | put | post | delete.

(** A handler of a registered chain: a function value of the configuration,
    or one of the five closures of [buildRoutes], with what it captured. *)
Inductive stage : Type :=
| SValue (v : value)
| SAction (a : action) (Res : Resource) (afterMiddleware : value).

Record registration : Type := mkRegistration {
  rmethod : value;
  rpath : value;
  rhandlers : list stage
}.

Definition router : Type := list registration.

Record Args : Type := mkArgs {
  extensions : option (list RouteObject);
  before : option (list RouteObject);
  after : option (list RouteObject)
}.

(** [x || []] *)
Definition orEmpty {A} (x : option (list A)) : list A :=
  match x with
  | Some l => l
  | None => []
  end.

(** [buildRoutes] works on the router it created and may throw. *)
Definition M (A : Type) : Type := router -> router * result string A.

Definition ret {A} (a : A) : M A := fun r => (r, Ok a).

Definition bind {A B} (m : M A) (k : A -> M B) : M B :=
  fun r =>
    match m r with
    | (r', Ok a) => k a r'
    | (r', Throw e) => (r', Throw e)
    end.

Definition lift {A} (x : result string A) : M A := fun r => (r, x).

Notation "m ;; k" := (bind m (fun _ => k))
  (at level 61, right associativity).

(** [router[m](path, h1, h2, h3)]; validation has made [m] a router method. *)
Definition register (m path : value) (hs : list stage) : M unit :=
  fun r => ((r ++ [mkRegistration m path hs])%list, Ok tt).

Fixpoint forEach {A} (l : list A) (f : A -> M unit) : M unit :=
  match l with
  | [] => ret tt
  | x :: t => f x ;; forEach t f
  end.

Definition buildRoutes (Res : Resource) (args : Args) : M unit :=
  let extensions := orEmpty (extensions args) in
  let before := orEmpty (before args) in
  let after := orEmpty (after args) in
  lift (validateRoutes extensions) ;;
  lift (validateRoutes before) ;;
  lift (validateRoutes after) ;;
  forEach extensions (fun ex =>
    register (method ex) (route ex)
      [SValue (extractMiddleware before (method ex) (route ex));
       SValue (function ex);
       SValue (extractMiddleware after (method ex) (route ex))]) ;;
  let getAllAfterMiddleware := extractMiddleware after (VStr "get") (VStr "/all") in
  register (VStr "get") (VStr "/all")
    [SValue (extractMiddleware before (VStr "get") (VStr "/all"));
     SAction getAll Res getAllAfterMiddleware;
     SValue getAllAfterMiddleware] ;;
  let getSingleAfterMiddleware :=
    extractMiddleware after (VStr "get") (VStr "/single/:id") in
  register (VStr "get") (VStr "/single/:id")
    [SValue (extractMiddleware before (VStr "get") (VStr "/single/:id"));
     SAction getSingle Res getSingleAfterMiddleware;
     SValue getSingleAfterMiddleware] ;;
  let putAfterMiddleware := extractMiddleware after (VStr "put") (VStr "/:id") in
  register (VStr "put") (VStr "/:id")
    [SValue (extractMiddleware before (VStr "put") (VStr "/:id"));
     SAction put Res putAfterMiddleware;
     SValue putAfterMiddleware] ;;
  let postAfterMiddleware := extractMiddleware after (VStr "post") (VStr "/") in
  register (VStr "post") (VStr "/")
    [SValue (extractMiddleware before (VStr "post") (VStr "/"));
     SAction post Res postAfterMiddleware;
     SValue postAfterMiddleware] ;;
  let deleteAfterMiddleware :=
    extractMiddleware after (VStr "delete") (VStr "/:id") in
  register (VStr "delete") (VStr "/:id")
    [SValue (extractMiddleware before (VStr "delete") (VStr "/:id"));
     SAction delete Res deleteAfterMiddleware;
     SValue deleteAfterMiddleware].

(** The router [buildRoutes] leaves behind and how it ended. *)
Definition run_buildRoutes (Res : Resource) (args : Args)
  : router * result string unit :=
  buildRoutes Res args [].

(** ** index.js: the five default actions and the chains they run in *)

Section Handlers.

(** [new RegExp(pattern, "i")] throws a SyntaxError on some patterns; which
    ones is the engine's business. [None]: the pattern compiles. *)
Variable RegExp_error : string -> option error.

Definition new_RegExp (pattern flags : string) : result error filterValue :=
  match RegExp_error pattern with
  | None => Ok (FRegExp pattern flags)
  | Some e => Throw e
  end.

(** The value entered into the filter for a query value [val]. *)
Definition filterValueOf (val : string) : result error filterValue :=
  if negb (isNaN val) then Ok (FNumber (Number val))
  else if negb (indexOf ["true"; "false"] (VStr (toLowerCase val)) =? -1)
  then Ok (FBool (String.eqb (toLowerCase val) "true"))
  else new_RegExp val "i".

(** [filters.forEach(f => ...)] *)
Fixpoint fillFilter (filters : list string) (q : list (string * string))
         (filter0 : list (string * filterValue))
  : result error (list (string * filterValue)) :=
  match filters with
  | [] => Ok filter0
  | f :: rest =>
      match get q f with
      | None => Throw (TypeError "Cannot read properties of undefined")
      | Some val =>
          match filterValueOf val with
          | Ok v => fillFilter rest q (set filter0 f v)
          | Throw e => Throw e
          end
      end
  end.

Definition buildFilter (modelProps : list string) (q : list (string * string))
  : result error (list (string * filterValue)) :=
  let filters := filter (fun param => includes modelProps param) (Object_keys q) in
  fillFilter filters q [].

Definition getAllHandler (Res : Resource) (getAllAfterMiddleware : value)
  : handler :=
  fun c =>
    let q := query (req c) in
    match buildFilter (schema_paths Res) q with
    | Throw e => (c, SNextErr e)
    | Ok filter0 =>
        match find_exec Res filter0 (sortOf q) with
        | Threw e => (c, SNextErr e)
        | Rejected e => (c, SNextErr (Err 400 (message e)))
        | Resolved l =>
            sendCrbResult getAllAfterMiddleware (DArray (slice q l))
                          (res_header "X-Total-Count" (List.length l) c)
        end
    end.

Definition getSingleHandler (Res : Resource) (getSingleAfterMiddleware : value)
  : handler :=
  fun c =>
    match findOne_exec Res (get (params (req c)) "id") with
    | Threw e => (c, SNextErr e)
    | Rejected e => (c, SNextErr (Err 400 (message e)))
    | Resolved d => sendCrbResult getSingleAfterMiddleware d c
    end.

Definition putHandler (Res : Resource) (putAfterMiddleware : value) : handler :=
  fun c =>
    match findByIdAndUpdate Res (get (params (req c)) "id") (body (req c)) with
    | Threw e => (c, SNextErr e)
    | Rejected e => (c, SNextErr (Err 400 (message e)))
    | Resolved d => sendCrbResult putAfterMiddleware d c
    end.

Definition postHandler (Res : Resource) (postAfterMiddleware : value) : handler :=
  fun c =>
    match save Res (body (req c)) with
    | Threw e => (c, SNextErr e)
    | Rejected e => (c, SNextErr (Err 400 (message e)))
    | Resolved d => sendCrbResult postAfterMiddleware d c
    end.

(** No [.catch] follows the [.then] here: a rejection reaches nobody. *)
Definition deleteHandler (Res : Resource) (deleteAfterMiddleware : value)
  : handler :=
  fun c =>
    match find_remove_exec Res (get (params (req c)) "id") with
    | Threw e => (c, SNextErr e)
    | Rejected e => (c, SEnd)
    | Resolved d => sendCrbResult deleteAfterMiddleware d c
    end.

(** *** The routing framework, as far as the chains need it

    A chain runs its handlers in order while each calls [next()]; [next(err)]
    skips the rest of the chain; a request goes to the registrations that
    take it, first registered first, and on to the next one when a chain has
    called [next()] to its end. *)

Definition call (v : value) : handler :=
  match v with
  | VFun FnEmptyMiddleware => fun c => (c, SNext)
  | VFun (FnUser _ body0) => body0
  | _ => fun c => (c, SNextErr (TypeError "not a function"))
  end.

Definition run_stage (s : stage) : handler :=
  match s with
  | SValue v => call v
  | SAction getAll Res aft => getAllHandler Res aft
  | SAction getSingle Res aft => getSingleHandler Res aft
  | SAction put Res aft => putHandler Res aft
  | SAction post Res aft => postHandler Res aft
  | SAction delete Res aft => deleteHandler Res aft
  end.

Fixpoint runChain (hs : list stage) (c : ctx) : ctx * signal :=
  match hs with
  | [] => (c, SNext)
  | h :: rest =>
      match run_stage h c with
      | (c', SNext) => runChain rest c'
      | (c', s) => (c', s)
      end
  end.

(** Whether a path pattern takes the path of a request, and the route
    parameters it then yields, is the framework's business: its matcher is
    given, pattern first. *)
Definition matcher : Type :=
  string -> string -> option (list (string * string)).

Definition string_of_value (v : value) : option string :=
  match v with
  | VStr s | VStringObj _ s => Some s
  | _ => None
  end.

(** A request of method [m] is offered to the registrations made under
    [m], and taken by those whose pattern takes its path. *)
Definition matchRoute (rm : matcher) (reg : registration) (m path : string)
  : option (list (string * string)) :=
  if strict_eq (rmethod reg) (VStr m) then
    match string_of_value (rpath reg) with
    | Some pat => rm pat path
    | None => None
    end
  else None.

Definition set_params (ps : list (string * string)) (c : ctx) : ctx :=
  {| req := {| query := query (req c); params := ps;
               body := body (req c); crbResult := crbResult (req c) |};
     res := res c |}.

(** The first registration a request is handed to. *)
Fixpoint firstMatch (rm : matcher) (r : router) (m path : string)
  : option registration :=
  match r with
  | [] => None
  | reg :: rest =>
      match matchRoute rm reg m path with
      | Some _ => Some reg
      | None => firstMatch rm rest m path
      end
  end.

Fixpoint dispatch (rm : matcher) (r : router) (m path : string) (c : ctx)
  : ctx * signal :=
  match r with
  | [] => (c, SNext)
  | reg :: rest =>
      match matchRoute rm reg m path with
      | Some ps =>
          match runChain (rhandlers reg) (set_params ps c) with
          | (c', SNext) => dispatch rm rest m path c'
          | (c', s) => (c', s)
          end
      | None => dispatch rm rest m path c
      end
  end.

(** ** Notions used in the statements *)

(** The chain [buildRoutes] registers for an extension. *)
Definition extensionRoute (before after : list RouteObject) (ex : RouteObject)
  : registration :=
  mkRegistration (method ex) (route ex)
    [SValue (extractMiddleware before (method ex) (route ex));
     SValue (function ex);
     SValue (extractMiddleware after (method ex) (route ex))].

(** The chain [buildRoutes] registers for a default slot. *)
Definition defaultRoute (Res : Resource) (before after : list RouteObject)
           (a : action) (m path : string) : registration :=
  mkRegistration (VStr m) (VStr path)
    [SValue (extractMiddleware before (VStr m) (VStr path));
     SAction a Res (extractMiddleware after (VStr m) (VStr path));
     SValue (extractMiddleware after (VStr m) (VStr path))].

Definition defaultRoutes (Res : Resource) (before after : list RouteObject)
  : router :=
  [defaultRoute Res before after getAll "get" "/all";
   defaultRoute Res before after getSingle "get" "/single/:id";
   defaultRoute Res before after put "put" "/:id";
   defaultRoute Res before after post "post" "/";
   defaultRoute Res before after delete "delete" "/:id"].

(** A route object is malformed, in the words of the specification: its
    method is none of the four, or its path is not a string, or its handler
    is not callable. *)
Definition isString (v : value) : bool :=
  match v with
  | VStr _ | VStringObj _ _ => true
  | _ => false
  end.

Definition callable (v : value) : bool :=
  match v with
  | VFun _ => true
  | _ => false
  end.

Definition malformed (r : RouteObject) : Prop :=
  (forall m, In m allowedMethods -> method r <> VStr m)
  \/ isString (route r) = false
  \/ callable (function r) = false.

(** A descriptor is for the target (m, path): both fields are these strings. *)
Definition isFor (m path : string) (r : RouteObject) : Prop :=
  method r = VStr m /\ route r = VStr path.

(** "Purely numeric", read as: a non-empty string of decimal digits. *)
Definition purelyNumeric (s : string) : bool :=
  negb (String.eqb s "") && forallb isDigit (list_ascii_of_string s).

(** The value is "true" or "false" up to case. *)
Definition isBoolWord (s : string) : bool :=
  String.eqb (toLowerCase s) "true" || String.eqb (toLowerCase s) "false".

(** Empty, or white space only. *)
Definition isBlank (s : string) : bool :=
  match trim (list_ascii_of_string s) with
  | [] => true
  | _ => false
  end.

(** ** Sample inputs *)

(** The framework's matcher on the requests of the examples: /all and /
    take themselves, and /42 and /single/42 give the parameter [id]. *)
Definition sampleMatcher : matcher :=
  fun pat path =>
    if String.eqb pat "/all" && String.eqb path "/all" then Some []
    else if String.eqb pat "/" && String.eqb path "/" then Some []
    else if String.eqb pat "/:id" && String.eqb path "/42"
    then Some [("id", "42")]
    else if String.eqb pat "/single/:id" && String.eqb path "/single/42"
    then Some [("id", "42")]
    else None.

Definition noRegExpError : string -> option error := fun _ => None.

Definition sampleDocs : list doc :=
  [[("name", "a")]; [("name", "b")]; [("name", "c")]; [("name", "d")];
   [("name", "e")]].

Definition sampleResource : Resource :=
  {| schema_paths := ["name"; "color"];
     find_exec := fun _ _ => Resolved sampleDocs;
     findOne_exec := fun _ => Resolved DNull;
     findByIdAndUpdate := fun _ _ => Resolved DNull;
     save := fun b => Resolved (DDoc b);
     find_remove_exec := fun _ => Rejected (mkError None "CastError") |}.

Definition sampleRequest (q : list (string * string)) : ctx :=
  {| req := {| query := q; params := [("id", "42")]; body := []; crbResult := None |};
     res := {| headers := []; sent := [] |} |}.

(** A caller's after-handler that answers with the carried result. *)
Definition sendCarried : value :=
  VFun (FnUser 1 (fun c =>
    match crbResult (req c) with
    | Some d => (res_send d c, SEnd)
    | None => (c, SEnd)
    end)).

Definition sampleHandler : value := VFun (FnUser 2 (fun c => (res_send DNull c, SEnd))).

Definition noArgs : Args := {| extensions := None; before := None; after := None |}.

Definition patchRoute : RouteObject := Route (VStr "patch") (VStr "/x") sampleHandler.
Definition customRoute : RouteObject :=
  Route (VStr "post") (VStr "/custom-route") sampleHandler.
Definition allRoute : RouteObject := Route (VStr "get") (VStr "/all") sampleHandler.

(** Not callable, and for no default slot nor extension. *)
Definition strayRoute : RouteObject := Route (VStr "get") (VStr "/nowhere") VUndefined.

(** ** Further notions used in the statements *)

(** A route object [validateRoutes] lets through: one of the four methods, a
    string (primitive or object) as route, a function. *)
Definition wellFormed (r : RouteObject) : Prop :=
  (exists m, In m allowedMethods /\ method r = VStr m)
  /\ isString (route r) = true
  /\ callable (function r) = true.

(** The test inside [extractMiddleware]. *)
Definition matchesTarget (d : RouteObject) (m p : value) : bool :=
  strict_eq (method d) m && strict_eq (route d) p.

(** The five (method, route) pairs [buildRoutes] resolves middleware for. *)
Definition defaultSlots : list (string * string) :=
  [("get", "/all"); ("get", "/single/:id"); ("put", "/:id"); ("post", "/");
   ("delete", "/:id")].

Definition withBefore (args : Args) (l : list RouteObject) : Args :=
  {| extensions := extensions args; before := Some l; after := after args |}.

Definition withAfter (args : Args) (l : list RouteObject) : Args :=
  {| extensions := extensions args; before := before args; after := Some l |}.

(** The three stages of a default slot, by the handlers resolved for it. *)
Definition defaultChain (a : action) (Res : Resource) (bef aft : value)
  : list stage :=
  [SValue bef; SAction a Res aft; SValue aft].

Definition stringObjectRoute : RouteObject :=
  Route (VStr "get") (VStringObj 7 "/all") sampleHandler.

Definition shadowedRoute : RouteObject :=
  Route (VStr "get") (VStr "/all") sendCarried.

Definition unmatchedRoute : RouteObject :=
  Route (VStr "get") (VStr "/nowhere") sampleHandler.

(** ** The handler factories

    The module that, next to [buildRoutes], exports the five actions as
    factories [(Resource, args, dontSendResult) => handler] (required from
    the same [helpers.js]). Its List action knows one more kind of value, a
    record identifier, and every action may be given a [resourceModifier].
    [ObjectId_isValid] stands for [mongoose.Types.ObjectId.isValid]. *)

(** A value of the filter: as before, or an identifier entered verbatim. *)
Inductive queryValue : Type :=
| QPlain (v : filterValue)
| QObjectId (val : string).

Record Model : Type := mkModel {
  model_paths : list string;
  model_find_exec : list (string * queryValue) -> option (string * Z)
                    -> outcome (list doc);
  model_findOne_exec : option string -> outcome data;
  model_findByIdAndUpdate : option string -> doc -> outcome data;
  model_save : doc -> outcome data;
  model_find_remove_exec : option string -> outcome data
}.

(** [(Resource, req, res) => Resource]: it sees request and response, may
    change them, and may throw. *)
Definition modifier : Type := Model -> ctx -> ctx * result error Model.

Record FactoryArgs : Type := mkFactoryArgs {
  f_extensions : option (list RouteObject);
  f_before : option (list RouteObject);
  f_after : option (list RouteObject);
  resourceModifier : option modifier
}.

(** [let R = resourceModifier ? resourceModifier(Resource, req, res) : Resource],
    with [args = {}] when no [args] is given. *)
Definition applyModifier (Resource0 : Model) (args : option FactoryArgs)
  : ctx -> ctx * result error Model :=
  fun c =>
    match args with
    | Some a =>
        match resourceModifier a with
        | Some f => f Resource0 c
        | None => (c, Ok Resource0)
        end
    | None => (c, Ok Resource0)
    end.

(** [dontSendResult = false] *)
Definition orFalse (dontSendResult : option value) : value :=
  match dontSendResult with
  | Some v => v
  | None => VBool false
  end.

Definition filterValueOfId (ObjectId_isValid : string -> bool) (val : string)
  : result error queryValue :=
  if negb (isNaN val) then Ok (QPlain (FNumber (Number val)))
  else if negb (indexOf ["true"; "false"] (VStr (toLowerCase val)) =? -1)
  then Ok (QPlain (FBool (String.eqb (toLowerCase val) "true")))
  else if ObjectId_isValid val then Ok (QObjectId val)
  else match new_RegExp val "i" with
       | Ok v => Ok (QPlain v)
       | Throw e => Throw e
       end.

Fixpoint fillFilterId (ObjectId_isValid : string -> bool)
         (filters : list string) (q : list (string * string))
         (filter0 : list (string * queryValue))
  : result error (list (string * queryValue)) :=
  match filters with
  | [] => Ok filter0
  | f :: rest =>
      match get q f with
      | None => Throw (TypeError "Cannot read properties of undefined")
      | Some val =>
          match filterValueOfId ObjectId_isValid val with
          | Ok v => fillFilterId ObjectId_isValid rest q (set filter0 f v)
          | Throw e => Throw e
          end
      end
  end.

Definition buildFilterId (ObjectId_isValid : string -> bool)
           (modelProps : list string) (q : list (string * string))
  : result error (list (string * queryValue)) :=
  let filters := filter (fun param => includes modelProps param) (Object_keys q) in
  fillFilterId ObjectId_isValid filters q [].

Definition getAll_factory (ObjectId_isValid : string -> bool)
           (Resource0 : Model) (args : option FactoryArgs)
           (dontSendResult : option value) : handler :=
  fun c =>
    match applyModifier Resource0 args c with
    | (c1, Throw e) => (c1, SNextErr e)
    | (c1, Ok R) =>
        let q := query (req c1) in
        match buildFilterId ObjectId_isValid (model_paths R) q with
        | Throw e => (c1, SNextErr e)
        | Ok filter0 =>
            match model_find_exec R filter0 (sortOf q) with
            | Threw e => (c1, SNextErr e)
            | Rejected e => (c1, SNextErr e)
            | Resolved l =>
                sendCrbResult (orFalse dontSendResult) (DArray (slice q l))
                              (res_header "X-Total-Count" (List.length l) c1)
            end
        end
    end.

Definition getSingle_factory (Resource0 : Model) (args : option FactoryArgs)
           (dontSendResult : option value) : handler :=
  fun c =>
    match applyModifier Resource0 args c with
    | (c1, Throw e) => (c1, SNextErr e)
    | (c1, Ok R) =>
        match model_findOne_exec R (get (params (req c1)) "id") with
        | Threw e => (c1, SNextErr e)
        | Rejected e => (c1, SNextErr e)
        | Resolved d => sendCrbResult (orFalse dontSendResult) d c1
        end
    end.

Definition update_factory (Resource0 : Model) (args : option FactoryArgs)
           (dontSendResult : option value) : handler :=
  fun c =>
    match applyModifier Resource0 args c with
    | (c1, Throw e) => (c1, SNextErr e)
    | (c1, Ok R) =>
        match model_findByIdAndUpdate R (get (params (req c1)) "id")
                                      (body (req c1)) with
        | Threw e => (c1, SNextErr e)
        | Rejected e => (c1, SNextErr e)
        | Resolved d => sendCrbResult (orFalse dontSendResult) d c1
        end
    end.

Definition create_factory (Resource0 : Model) (args : option FactoryArgs)
           (dontSendResult : option value) : handler :=
  fun c =>
    match applyModifier Resource0 args c with
    | (c1, Throw e) => (c1, SNextErr e)
    | (c1, Ok R) =>
        match model_save R (body (req c1)) with
        | Threw e => (c1, SNextErr e)
        | Rejected e => (c1, SNextErr e)
        | Resolved d => sendCrbResult (orFalse dontSendResult) d c1
        end
    end.

Definition remove_factory (Resource0 : Model) (args : option FactoryArgs)
           (dontSendResult : option value) : handler :=
  fun c =>
    match applyModifier Resource0 args c with
    | (c1, Throw e) => (c1, SNextErr e)
    | (c1, Ok R) =>
        match model_find_remove_exec R (get (params (req c1)) "id") with
        | Threw e => (c1, SNextErr e)
        | Rejected e => (c1, SNextErr e)
        | Resolved d => sendCrbResult (orFalse dontSendResult) d c1
        end
    end.

(** The factory of an action. *)
Definition factory (ObjectId_isValid : string -> bool) (a : action)
  : Model -> option FactoryArgs -> option value -> handler :=
  match a with
  | getAll => getAll_factory ObjectId_isValid
  | getSingle => getSingle_factory
  | put => update_factory
  | post => create_factory
  | delete => remove_factory
  end.

(** The data call of an action on a model, where it needs no filter. *)
Definition dataCall (a : action) (R : Model) (c : ctx) : option (outcome data) :=
  match a with
  | getAll => None
  | getSingle => Some (model_findOne_exec R (get (params (req c)) "id"))
  | put => Some (model_findByIdAndUpdate R (get (params (req c)) "id")
                                         (body (req c)))
  | post => Some (model_save R (body (req c)))
  | delete => Some (model_find_remove_exec R (get (params (req c)) "id"))
  end.

Definition plain (kv : string * filterValue) : string * queryValue :=
  (fst kv, QPlain (snd kv)).

(** A model seen as the resource of [buildRoutes]: its filters never hold
    an identifier. *)
Definition asResource (M : Model) : Resource :=
  {| schema_paths := model_paths M;
     find_exec := fun filt s => model_find_exec M (map plain filt) s;
     findOne_exec := model_findOne_exec M;
     findByIdAndUpdate := model_findByIdAndUpdate M;
     save := model_save M;
     find_remove_exec := model_find_remove_exec M |}.

Definition sampleModel : Model :=
  {| model_paths := ["name"; "owner"];
     model_find_exec := fun _ _ => Resolved sampleDocs;
     model_findOne_exec := fun _ => Resolved DNull;
     model_findByIdAndUpdate := fun _ _ => Resolved DNull;
     model_save := fun b => Resolved (DDoc b);
     model_find_remove_exec := fun _ => Rejected (mkError None "CastError") |}.

(** A modifier that turns away requests without a body field [tenant]. *)
Definition tenantModifier : modifier :=
  fun M c =>
    match get (body (req c)) "tenant" with
    | Some _ => (c, Ok M)
    | None => (c, Throw (mkError None "no tenant"))
    end.

Definition tenantArgs : FactoryArgs :=
  {| f_extensions := None; f_before := None; f_after := None;
     resourceModifier := Some tenantModifier |}.

Definition hex24 : string -> bool :=
  fun s => (String.length s =? 24)%nat.

(** An extension for GET /all that passes the request on. *)
Definition passingRoute : RouteObject :=
  Route (VStr "get") (VStr "/all")
        (VFun (FnUser 3 (fun c => (res_header "X-Seen" 1 c, SNext)))).

(** A pattern the engine refuses. *)
Definition parenError : string -> option error :=
  fun s => if String.eqb s "(" then Some (mkError None "Unterminated group")
           else None.

(** ** Proof steps *)

(** One case of the comparison of a factory's handler with an action. *)
Ltac agree_case :=
  let c' := fresh "c'" in
  let s := fresh "s" in
  let H := fresh "H" in
  let Hs := fresh "Hs" in
  split;
  [ intros c' s H Hs;
    first [ exact H
          | injection H as <- <-; exfalso; eapply Hs; reflexivity ]
  | intros c' s H;
    first [ discriminate H
          | exists s; split; [exact H | reflexivity]
          | injection H as <- <-; eexists; split; reflexivity ] ].

(** ** Properties *)

(** The 256 characters, one by one. *)
Ltac lower_cases :=
  let H := fresh in
  intros [[] [] [] [] [] [] [] []]; cbv; intro H; try discriminate H; auto.

(** *** Numbers from strings: sample values *)

Example Number_12 : Number "12" = Fin (12 # 1). Proof. reflexivity. Qed.
Example Number_ws : Number " 7 " = Fin (7 # 1). Proof. reflexivity. Qed.
Example Number_frac : Number "1.5e1" = Fin (15 # 1). Proof. reflexivity. Qed.
Example Number_half : Number "-.5" = Fin (-1 # 2). Proof. reflexivity. Qed.
Example Number_hex : Number "0x1F" = Fin (31 # 1). Proof. reflexivity. Qed.
Example Number_empty : Number "" = Fin 0. Proof. reflexivity. Qed.
Example Number_abc : Number "abc" = NaN. Proof. reflexivity. Qed.
Example Number_1e : Number "1e" = NaN. Proof. reflexivity. Qed.
Example Number_dot : Number "." = NaN. Proof. reflexivity. Qed.
Example Number_5dot : Number "5." = Fin (5 # 1). Proof. reflexivity. Qed.
Example Number_inf : Number "-Infinity" = NInf. Proof. reflexivity. Qed.
Example Number_m0x : Number "-0x10" = NaN. Proof. reflexivity. Qed.
Example Number_true : Number "true" = NaN. Proof. reflexivity. Qed.
Example Number_0x : Number "0x" = NaN. Proof. reflexivity. Qed.
Example Number_1_2 : Number "1 2" = NaN. Proof. reflexivity. Qed.
Example Number_plus : Number "+3" = Fin (3 # 1). Proof. reflexivity. Qed.
Example Number_exp :
  Number "2E-1" = Fin (3602879701896397 # 18014398509481984).
Proof. reflexivity. Qed.
Example Number_pm : Number "+-3" = NaN. Proof. reflexivity. Qed.
Example Number_e5 : Number "e5" = NaN. Proof. reflexivity. Qed.
Example Number_dote : Number ".e5" = NaN. Proof. reflexivity. Qed.
Example Number_tab : Number (String (ascii_of_nat 9) "") = Fin 0. Proof. reflexivity. Qed.
Example Number_0b : Number "0b101" = Fin (5 # 1). Proof. reflexivity. Qed.
Example Number_0o8 : Number "0o8" = NaN. Proof. reflexivity. Qed.
Example Number_10 : Number "10" = Fin (10 # 1). Proof. reflexivity. Qed.
Example Number_tie : Number "9007199254740993" = Fin (9007199254740992 # 1).
Proof. reflexivity. Qed.
Example Number_tie_up : Number "9007199254740995" = Fin (9007199254740996 # 1).
Proof. reflexivity. Qed.
Example Number_hex_tie : Number "0x20000000000001" = Fin (9007199254740992 # 1).
Proof. reflexivity. Qed.
Example Number_1e23 : Number "1e23" = Fin (99999999999999991611392 # 1).
Proof. reflexivity. Qed.
Example Number_overflow : Number "1e400" = PInf. Proof. reflexivity. Qed.
Example Number_last_finite :
  Number "1.7976931348623158e308" = Fin (inject_Z (2 ^ 1024 - 2 ^ 971)).
Proof. reflexivity. Qed.
Example Number_first_infinite : Number "1.7976931348623159e308" = PInf.
Proof. reflexivity. Qed.
Example Number_subnormal :
  Number "3e-324" = Fin (Qmake 1 (Z.to_pos (2 ^ 1074))).
Proof. reflexivity. Qed.
Example Number_underflow : Number "2e-324" = Fin 0. Proof. reflexivity. Qed.
Example Number_minus_zero : Number "-0" = NegZero. Proof. reflexivity. Qed.
Example Number_minus_underflow : Number "-1e-400" = NegZero.
Proof. reflexivity. Qed.
Example Number_nbsp :
  Number (String (ascii_of_nat 194) (String (ascii_of_nat 160) "")) = Fin 0.
Proof. reflexivity. Qed.
Example Number_nbsp_5 :
  Number (String (ascii_of_nat 194) (String (ascii_of_nat 160) "5"))
  = Fin (5 # 1).
Proof. reflexivity. Qed.
Example Number_5_line_separator :
  Number (String "5" (String (ascii_of_nat 226) (String (ascii_of_nat 128)
            (String (ascii_of_nat 168) ""))))
  = Fin (5 # 1).
Proof. reflexivity. Qed.
Example Number_5_bom_space :
  Number (String "5" (String (ascii_of_nat 239) (String (ascii_of_nat 187)
            (String (ascii_of_nat 191) " "))))
  = Fin (5 # 1).
Proof. reflexivity. Qed.
Example Number_next_line :
  Number (String (ascii_of_nat 194) (String (ascii_of_nat 133) "5")) = NaN.
Proof. reflexivity. Qed.

(** *** Strict equality *)

Lemma strict_eq_VStr (v : value) (s : string) :
  strict_eq v (VStr s) = true <-> v = VStr s.
Proof.
  destruct v; simpl; split; intro H; try discriminate.
  - apply String.eqb_eq in H. now subst.
  - injection H as ->. apply String.eqb_refl.
Qed.

Lemma strict_eq_VStr_l (v : value) (s : string) :
  strict_eq (VStr s) v = true <-> v = VStr s.
Proof.
  destruct v; simpl; split; intro H; try discriminate.
  - apply String.eqb_eq in H. now subst.
  - injection H as ->. apply String.eqb_refl.
Qed.

Lemma strict_eq_emptyMiddleware (v : value) :
  strict_eq v emptyMiddleware = true <-> v = emptyMiddleware.
Proof.
  unfold emptyMiddleware.
  destruct v as [| | | | | |f|]; simpl; split; intro H; try discriminate.
  - destruct f; [reflexivity | discriminate].
  - injection H as ->. reflexivity.
Qed.

(** *** The result dispatcher *)

(** C1: [sendCrbResult] either sends the data at once (one more body sent,
    continuation not invoked, request left as it was, so [crbResult] is not
    populated) or attaches it to [req.crbResult] and invokes the continuation
    (nothing sent): one of the two, never both; it attaches and continues
    exactly when the after-handler argument is truthy and is not
    [emptyMiddleware]. *)
Theorem sendCrbResult_exactly_one (afterMiddleware : value) (d : data) (c : ctx) :
  let out := sendCrbResult afterMiddleware d c in
  let present := truthy afterMiddleware = true /\ afterMiddleware <> emptyMiddleware in
  let sentNow :=
    sent (res (fst out)) = (sent (res c) ++ [d])%list /\ snd out = SEnd
    /\ req (fst out) = req c in
  let deferred :=
    crbResult (req (fst out)) = Some d /\ snd out = SNext
    /\ res (fst out) = res c in
  (deferred <-> present)
  /\ (sentNow <-> ~ present)
  /\ (sentNow \/ deferred)
  /\ ~ (sentNow /\ deferred)
  /\ (sentNow -> crbResult (req (fst out)) = crbResult (req c)).
Proof.
  cbv zeta. unfold sendCrbResult.
  destruct (truthy afterMiddleware) eqn:Ht; simpl.
  - destruct (strict_eq afterMiddleware emptyMiddleware) eqn:He; simpl.
    + apply strict_eq_emptyMiddleware in He.
      intuition (try discriminate; try congruence).
    + assert (Hne : afterMiddleware <> emptyMiddleware).
      { intro E. apply strict_eq_emptyMiddleware in E. congruence. }
      intuition (try discriminate; try congruence).
  - intuition (try discriminate; try congruence).
Qed.

(** *** The middleware resolver *)

Lemma extractMiddleware_first (routes : list RouteObject) (m p : value) :
  extractMiddleware routes m p =
  match filter (fun r => strict_eq (method r) m && strict_eq (route r) p) routes with
  | r :: _ => function r
  | [] => emptyMiddleware
  end.
Proof.
  unfold extractMiddleware.
  destruct (filter _ routes); reflexivity.
Qed.

Lemma isFor_strict_eq (m p : string) (r : RouteObject) :
  strict_eq (method r) (VStr m) && strict_eq (route r) (VStr p) = true
  <-> isFor m p r.
Proof.
  unfold isFor. rewrite andb_true_iff, !strict_eq_VStr. tauto.
Qed.

Lemma filter_none {A} (f : A -> bool) (l : list A) :
  (forall x, In x l -> f x = false) -> filter f l = [].
Proof.
  induction l as [|a l IH]; simpl; intro H; [reflexivity|].
  rewrite (H a (or_introl eq_refl)). apply IH. intros x Hx. apply H. now right.
Qed.

Lemma extractMiddleware_hit (pre post : list RouteObject) (r : RouteObject)
      (m p : string) :
  isFor m p r ->
  (forall x, In x pre -> ~ isFor m p x) ->
  extractMiddleware (pre ++ r :: post) (VStr m) (VStr p) = function r.
Proof.
  intros Hr Hpre. rewrite extractMiddleware_first, filter_app.
  rewrite (filter_none _ pre).
  - simpl. apply isFor_strict_eq in Hr. now rewrite Hr.
  - intros x Hx. specialize (Hpre x Hx).
    destruct (strict_eq (method x) (VStr m) && strict_eq (route x) (VStr p)) eqn:E;
      [|reflexivity].
    apply isFor_strict_eq in E. contradiction.
Qed.

Lemma extractMiddleware_miss (routes : list RouteObject) (m p : string) :
  (forall x, In x routes -> ~ isFor m p x) ->
  extractMiddleware routes (VStr m) (VStr p) = emptyMiddleware.
Proof.
  intro H. rewrite extractMiddleware_first, filter_none; [reflexivity|].
  intros x Hx. specialize (H x Hx).
  destruct (strict_eq (method x) (VStr m) && strict_eq (route x) (VStr p)) eqn:E;
    [|reflexivity].
  apply isFor_strict_eq in E. contradiction.
Qed.

(** *** Validation and registration *)

Lemma validateRoutes_message (routes : list RouteObject) (e : string) :
  validateRoutes routes = Throw e -> e = "Invalid Route object".
Proof.
  induction routes as [|r t IH]; simpl; [discriminate|].
  destruct (invalidRoute r); [intro H; now injection H | exact IH].
Qed.

Lemma validateRoutes_unit (routes : list RouteObject) (u : unit) :
  validateRoutes routes = Ok u -> validateRoutes routes = Ok tt.
Proof. now destruct u. Qed.

Lemma forEach_register (bef aft l : list RouteObject) (r : router) :
  forEach l (fun ex =>
    register (method ex) (route ex)
      [SValue (extractMiddleware bef (method ex) (route ex));
       SValue (function ex);
       SValue (extractMiddleware aft (method ex) (route ex))]) r
  = ((r ++ map (extensionRoute bef aft) l)%list, Ok tt).
Proof.
  revert r. induction l as [|ex t IH]; intro r; simpl.
  - unfold ret. now rewrite app_nil_r.
  - unfold bind at 1. unfold register at 1. rewrite IH.
    now rewrite <- app_assoc.
Qed.

(** What [buildRoutes] leaves behind, by the outcome of the three validations. *)
Lemma run_buildRoutes_cases (Res : Resource) (args : Args) :
  run_buildRoutes Res args =
  match validateRoutes (orEmpty (extensions args)),
        validateRoutes (orEmpty (before args)),
        validateRoutes (orEmpty (after args)) with
  | Ok _, Ok _, Ok _ =>
      ((map (extensionRoute (orEmpty (before args)) (orEmpty (after args)))
            (orEmpty (extensions args))
        ++ defaultRoutes Res (orEmpty (before args)) (orEmpty (after args)))%list,
       Ok tt)
  | _, _, _ => ([], Throw "Invalid Route object")
  end.
Proof.
  unfold run_buildRoutes, buildRoutes.
  unfold bind at 1. unfold lift at 1.
  destruct (validateRoutes (orEmpty (extensions args))) as [u1|e1] eqn:E1.
  2:{ now rewrite (validateRoutes_message _ _ E1). }
  unfold bind at 1. unfold lift at 1.
  destruct (validateRoutes (orEmpty (before args))) as [u2|e2] eqn:E2.
  2:{ now rewrite (validateRoutes_message _ _ E2). }
  unfold bind at 1. unfold lift at 1.
  destruct (validateRoutes (orEmpty (after args))) as [u3|e3] eqn:E3.
  2:{ now rewrite (validateRoutes_message _ _ E3). }
  unfold bind at 1. rewrite forEach_register. simpl.
  unfold bind, register. simpl.
  rewrite <- !app_assoc. reflexivity.
Qed.

Lemma indexOf_from_absent (l : list string) (v : value) (i : Z) :
  0 <= i ->
  (indexOf_from l v i = -1 <-> (forall m, In m l -> v <> VStr m)).
Proof.
  revert i. induction l as [|x t IH]; intros i Hi; cbn [indexOf_from In].
  - split; [intros _ m [] | reflexivity].
  - destruct (strict_eq (VStr x) v) eqn:E.
    + apply strict_eq_VStr_l in E. split; [lia|].
      intro H. exfalso. apply (H x); auto.
    + rewrite (IH (i + 1)) by lia. split.
      * intros H m [<-|Hm]; [|now apply H].
        intro Hv. subst v. cbn in E. rewrite String.eqb_refl in E. discriminate.
      * intros H m Hm. apply H. now right.
Qed.

Lemma indexOf_allowedMethods (v : value) :
  indexOf allowedMethods v = -1
  <-> (forall m, In m allowedMethods -> v <> VStr m).
Proof. apply indexOf_from_absent. lia. Qed.

Lemma isString_check (v : value) :
  (String.eqb (typeof v) "string" || instanceof_String v) = isString v.
Proof. destruct v; reflexivity. Qed.

Lemma isFunction_callable (v : value) : isFunction v = callable v.
Proof.
  unfold isFunction.
  destruct v; simpl; try reflexivity; apply andb_false_r.
Qed.

Lemma invalidRoute_malformed (r : RouteObject) :
  invalidRoute r = true <-> malformed r.
Proof.
  unfold invalidRoute, malformed.
  rewrite isString_check, isFunction_callable, !orb_true_iff, !negb_true_iff.
  rewrite Z.eqb_eq, indexOf_allowedMethods. tauto.
Qed.

Lemma validateRoutes_prefix_ok (pre : list RouteObject) :
  Forall (fun x => ~ malformed x) pre -> validateRoutes pre = Ok tt.
Proof.
  induction 1 as [|x l Hx _ IH]; simpl; [reflexivity|].
  destruct (invalidRoute x) eqn:E; [|exact IH].
  apply invalidRoute_malformed in E. contradiction.
Qed.

Lemma validateRoutes_stops (pre post : list RouteObject) (r : RouteObject) :
  Forall (fun x => ~ malformed x) pre -> malformed r ->
  validateRoutes (pre ++ r :: post) = Throw "Invalid Route object".
Proof.
  intros Hpre Hr. induction Hpre as [|x l Hx _ IH]; simpl.
  - apply invalidRoute_malformed in Hr. now rewrite Hr.
  - destruct (invalidRoute x) eqn:E; [reflexivity | exact IH].
Qed.

Lemma first_malformed (routes : list RouteObject) :
  Exists malformed routes ->
  exists pre r post,
    routes = (pre ++ r :: post)%list
    /\ Forall (fun x => ~ malformed x) pre /\ malformed r.
Proof.
  induction routes as [|x t IH]; intro H; [inversion H|].
  destruct (invalidRoute x) eqn:E.
  - exists [], x, t. repeat split; [constructor|].
    now apply invalidRoute_malformed.
  - assert (Hx : ~ malformed x).
    { intro M. apply invalidRoute_malformed in M. congruence. }
    inversion H as [? ? M|? ? M]; subst; [contradiction|].
    destruct (IH M) as (pre & r & post & -> & Hpre & Hr).
    exists (x :: pre), r, post. repeat split; [now constructor | exact Hr].
Qed.

Lemma validateRoutes_malformed (routes : list RouteObject) :
  Exists malformed routes -> validateRoutes routes = Throw "Invalid Route object".
Proof.
  intro H. destruct (first_malformed routes H) as (pre & r & post & -> & Hp & Hr).
  now apply validateRoutes_stops.
Qed.

Lemma run_buildRoutes_throws (Res : Resource) (args : Args) :
  Exists malformed (orEmpty (extensions args))
  \/ Exists malformed (orEmpty (before args))
  \/ Exists malformed (orEmpty (after args)) ->
  run_buildRoutes Res args = ([], Throw "Invalid Route object").
Proof.
  intro H. rewrite run_buildRoutes_cases.
  destruct H as [H|[H|H]]; rewrite (validateRoutes_malformed _ H);
    repeat match goal with |- context [match ?x with _ => _ end] => destruct x end;
    reflexivity.
Qed.

Lemma extensionRoute_stages (bef aft : list RouteObject) (ex : RouteObject) :
  List.length (rhandlers (extensionRoute bef aft ex)) = 3%nat.
Proof. reflexivity. Qed.

Lemma registered_three_stages (Res : Resource) (args : Args) :
  Forall (fun reg => List.length (rhandlers reg) = 3%nat)
         (fst (run_buildRoutes Res args)).
Proof.
  rewrite run_buildRoutes_cases.
  destruct (validateRoutes (orEmpty (extensions args)));
    destruct (validateRoutes (orEmpty (before args)));
    destruct (validateRoutes (orEmpty (after args))); simpl; try constructor.
  apply Forall_app. split.
  - apply Forall_forall. intros reg Hreg.
    apply in_map_iff in Hreg. destruct Hreg as (ex & <- & _). reflexivity.
  - repeat constructor.
Qed.

(** C6: for a list of route objects and a target (method, path),
    [extractMiddleware] returns the function of the first route object whose
    method and route are exactly these strings; when there is none it returns
    [emptyMiddleware], which invokes the continuation and leaves request and
    response as they were; and every chain [buildRoutes] registers has exactly
    three stages, whatever [before] and [after] hold. *)
Theorem extractMiddleware_first_match (routes : list RouteObject) (m p : string) :
  (forall pre r post,
      routes = (pre ++ r :: post)%list ->
      isFor m p r ->
      (forall x, In x pre -> ~ isFor m p x) ->
      extractMiddleware routes (VStr m) (VStr p) = function r)
  /\ ((forall x, In x routes -> ~ isFor m p x) ->
      extractMiddleware routes (VStr m) (VStr p) = emptyMiddleware)
  /\ (forall c, call emptyMiddleware c = (c, SNext))
  /\ (forall Res args,
         Forall (fun reg => List.length (rhandlers reg) = 3%nat)
                (fst (run_buildRoutes Res args))).
Proof.
  split; [|split; [|split]].
  - intros pre r post -> Hr Hpre. now apply extractMiddleware_hit.
  - apply extractMiddleware_miss.
  - reflexivity.
  - apply registered_three_stages.
Qed.

(** C5: when a list of route objects holds a malformed entry (method none of
    get, post, put, delete, or route not a string, or function not callable),
    [validateRoutes] throws, and it throws at the first such entry: the
    entries before it pass, and nothing after it matters. When that list is
    the extensions, the before or the after list given to [buildRoutes],
    [buildRoutes] throws with no route registered. *)
Theorem validateRoutes_fail_fast (Res : Resource) (args : Args)
        (routes : list RouteObject) :
  Exists malformed routes ->
  (exists pre r post,
      routes = (pre ++ r :: post)%list
      /\ Forall (fun x => ~ malformed x) pre
      /\ malformed r
      /\ validateRoutes pre = Ok tt
      /\ forall post',
          validateRoutes (pre ++ r :: post') = Throw "Invalid Route object")
  /\ validateRoutes routes = Throw "Invalid Route object"
  /\ (orEmpty (extensions args) = routes
      \/ orEmpty (before args) = routes
      \/ orEmpty (after args) = routes ->
      run_buildRoutes Res args = ([], Throw "Invalid Route object")).
Proof.
  intro H. split; [|split].
  - destruct (first_malformed routes H) as (pre & r & post & -> & Hp & Hr).
    exists pre, r, post. repeat split; try assumption.
    + now apply validateRoutes_prefix_ok.
    + intro post'. now apply validateRoutes_stops.
  - now apply validateRoutes_malformed.
  - intro Hl. apply run_buildRoutes_throws.
    destruct Hl as [ -> | [ -> | -> ] ]; auto.
Qed.

(** C10: a malformed route object anywhere in the before or the after list
    makes [buildRoutes] throw with no route registered, whatever its method
    and route are: nothing asks whether it is for a default slot or for an
    extension. *)
Theorem malformed_middleware_aborts (Res : Resource) (args : Args)
        (d : RouteObject) :
  In d (orEmpty (before args)) \/ In d (orEmpty (after args)) ->
  malformed d ->
  run_buildRoutes Res args = ([], Throw "Invalid Route object").
Proof.
  intros Hin Hd. apply run_buildRoutes_throws.
  destruct Hin as [Hin|Hin]; [right; left | right; right];
    apply Exists_exists; exists d; auto.
Qed.

(** *** Registration order and dispatch *)

Lemma matchRoute_isFor_all (rm : matcher) (bef aft : list RouteObject)
      (ex : RouteObject) :
  isFor "get" "/all" ex ->
  matchRoute rm (extensionRoute bef aft ex) "get" "/all" = rm "/all" "/all".
Proof.
  intros [Hm Hp]. unfold matchRoute, extensionRoute. simpl.
  rewrite Hm, Hp. reflexivity.
Qed.

Lemma firstMatch_app_miss (rm : matcher) (r1 r2 : router) (m path : string) :
  (forall reg, In reg r1 -> matchRoute rm reg m path = None) ->
  firstMatch rm (r1 ++ r2)%list m path = firstMatch rm r2 m path.
Proof.
  induction r1 as [|reg t IH]; intro H; simpl; [reflexivity|].
  rewrite (H reg (or_introl eq_refl)). apply IH.
  intros x Hx. apply H. now right.
Qed.

Lemma dispatch_app_miss (rm : matcher) (r1 r2 : router) (m path : string)
      (c : ctx) :
  (forall reg, In reg r1 -> matchRoute rm reg m path = None) ->
  dispatch rm (r1 ++ r2)%list m path c = dispatch rm r2 m path c.
Proof.
  induction r1 as [|reg t IH]; intro H; simpl; [reflexivity|].
  rewrite (H reg (or_introl eq_refl)). apply IH.
  intros x Hx. apply H. now right.
Qed.

Lemma firstMatch_in_extensions (rm : matcher) (f : RouteObject -> registration)
      (exts : list RouteObject) (rest : router) (m path : string) :
  (exists ex, In ex exts /\ matchRoute rm (f ex) m path <> None) ->
  exists ex', In ex' exts
              /\ firstMatch rm (map f exts ++ rest)%list m path = Some (f ex').
Proof.
  induction exts as [|a t IH]; intros (ex & Hin & Hm); [destruct Hin|].
  cbn [map app firstMatch].
  destruct (matchRoute rm (f a) m path) eqn:Ea.
  - exists a. split; [now left | reflexivity].
  - destruct Hin as [<-|Hin]; [contradiction|].
    destruct IH as (ex' & Hin' & Hf); [now exists ex|].
    exists ex'. split; [now right | exact Hf].
Qed.

(** C7, as the code has it: when the three lists pass validation,
    [buildRoutes] registers one chain per extension, in declaration order,
    each made of the before-handler resolved for the extension's own method
    and route, the extension's function, and the after-handler resolved
    likewise, and only then the five default slots. So, whatever the
    framework's matcher, as long as the pattern /all takes the path /all: with
    an extension for (get, /all), a GET /all request goes to an extension's
    chain before the built-in List action; to that extension's own chain when
    the framework hands GET /all to no earlier extension; and when that chain
    does not pass the request on, its outcome is the outcome of the request
    and the List action does not run. *)
Theorem extensions_registered_first (Res : Resource) (args : Args) :
  validateRoutes (orEmpty (extensions args)) = Ok tt ->
  validateRoutes (orEmpty (before args)) = Ok tt ->
  validateRoutes (orEmpty (after args)) = Ok tt ->
  let bef := orEmpty (before args) in
  let aft := orEmpty (after args) in
  run_buildRoutes Res args =
    ((map (extensionRoute bef aft) (orEmpty (extensions args))
      ++ defaultRoutes Res bef aft)%list, Ok tt)
  /\ forall (rm : matcher) ps,
      rm "/all" "/all" = Some ps ->
      (forall ex,
          In ex (orEmpty (extensions args)) -> isFor "get" "/all" ex ->
          exists ex',
            In ex' (orEmpty (extensions args))
            /\ firstMatch rm (fst (run_buildRoutes Res args)) "get" "/all"
               = Some (extensionRoute bef aft ex'))
      /\ forall pre ex post,
          orEmpty (extensions args) = (pre ++ ex :: post)%list ->
          isFor "get" "/all" ex ->
          (forall x, In x pre ->
             matchRoute rm (extensionRoute bef aft x) "get" "/all" = None) ->
          firstMatch rm (fst (run_buildRoutes Res args)) "get" "/all"
            = Some (extensionRoute bef aft ex)
          /\ forall c c' s,
              runChain (rhandlers (extensionRoute bef aft ex)) (set_params ps c)
                = (c', s) ->
              s <> SNext ->
              dispatch rm (fst (run_buildRoutes Res args)) "get" "/all" c
              = (c', s).
Proof.
  intros E1 E2 E3 bef aft.
  assert (Hrun : run_buildRoutes Res args =
    ((map (extensionRoute bef aft) (orEmpty (extensions args))
      ++ defaultRoutes Res bef aft)%list, Ok tt)).
  { rewrite run_buildRoutes_cases, E1, E2, E3. reflexivity. }
  split; [exact Hrun|]. intros rm ps Hall. split.
  { intros ex Hin Hex. rewrite Hrun. cbn [fst].
    apply firstMatch_in_extensions. exists ex. split; [exact Hin|].
    rewrite (matchRoute_isFor_all rm bef aft ex Hex), Hall. discriminate. }
  intros pre ex post Hsplit Hex Hpre. rewrite Hrun, Hsplit. cbn [fst].
  rewrite map_app, <- app_assoc. cbn [map app].
  assert (Hmiss : forall reg, In reg (map (extensionRoute bef aft) pre) ->
                              matchRoute rm reg "get" "/all" = None).
  { intros reg Hreg. apply in_map_iff in Hreg.
    destruct Hreg as (x & <- & Hx). now apply Hpre. }
  split.
  - rewrite firstMatch_app_miss by exact Hmiss.
    cbn [firstMatch].
    now rewrite (matchRoute_isFor_all rm bef aft ex Hex), Hall.
  - intros c c' s Hchain Hs.
    rewrite dispatch_app_miss by exact Hmiss.
    cbn [dispatch].
    rewrite (matchRoute_isFor_all rm bef aft ex Hex), Hall, Hchain.
    destruct s; [contradiction | reflexivity | reflexivity].
Qed.

(** *** The List action: slicing *)

Lemma Qle_bool_inject_Z (a b : Z) :
  Qle_bool (inject_Z a) (inject_Z b) = (a <=? b).
Proof. unfold Qle_bool, inject_Z. simpl. now rewrite !Z.mul_1_r. Qed.

Lemma index_ge_nat (i s : nat) (sv : string) :
  Number sv = Fin (inject_Z (Z.of_nat s)) -> index_ge i sv = (s <=? i)%nat.
Proof.
  intro H. unfold index_ge. rewrite H, Qle_bool_inject_Z.
  destruct (Nat.leb_spec s i); [apply Z.leb_le | apply Z.leb_gt]; lia.
Qed.

Lemma index_le_nat (i e : nat) (ev : string) :
  Number ev = Fin (inject_Z (Z.of_nat e)) -> index_le i ev = (i <=? e)%nat.
Proof.
  intro H. unfold index_le. rewrite H, Qle_bool_inject_Z.
  destruct (Nat.leb_spec i e); [apply Z.leb_le | apply Z.leb_gt]; lia.
Qed.

Lemma filter_index_ext {A} (p p' : nat -> bool) (l : list A) (k : nat) :
  (forall i, p i = p' i) -> filter_index p k l = filter_index p' k l.
Proof.
  intro H. revert k. induction l as [|x t IH]; intro k; simpl; [reflexivity|].
  now rewrite H, IH.
Qed.

Lemma filter_index_never {A} (p : nat -> bool) (l : list A) (k : nat) :
  (forall i, p i = false) -> filter_index p k l = [].
Proof.
  intro H. revert k. induction l as [|x t IH]; intro k; simpl; [reflexivity|].
  now rewrite H, IH.
Qed.

(** Keeping the indices between [s] and [e], counted from [k]. *)
Lemma filter_index_range {A} (l : list A) (k s e : nat) :
  filter_index (fun i => (s <=? i)%nat && (i <=? e)%nat) k l
  = firstn (e + 1 - Nat.max s k) (skipn (s - k) l).
Proof.
  revert k. induction l as [|x t IH]; intro k.
  - simpl. now rewrite skipn_nil, firstn_nil.
  - cbn [filter_index]. rewrite IH.
    destruct (Nat.leb_spec s k) as [Hs|Hs]; destruct (Nat.leb_spec k e) as [He|He];
      cbn [andb].
    + replace (s - k)%nat with 0%nat by lia.
      replace (s - S k)%nat with 0%nat by lia.
      replace (e + 1 - Nat.max s k)%nat with (S (e - k)) by lia.
      replace (e + 1 - Nat.max s (S k))%nat with (e - k)%nat by lia.
      reflexivity.
    + replace (e + 1 - Nat.max s (S k))%nat with 0%nat by lia.
      replace (e + 1 - Nat.max s k)%nat with 0%nat by lia.
      reflexivity.
    + replace (s - k)%nat with (S (s - S k)) by lia.
      replace (Nat.max s (S k)) with (Nat.max s k) by lia.
      reflexivity.
    + replace (s - k)%nat with (S (s - S k)) by lia.
      replace (Nat.max s (S k)) with (Nat.max s k) by lia.
      reflexivity.
Qed.

Lemma sendCrbResult_headers (aft : value) (d : data) (c : ctx) :
  headers (res (fst (sendCrbResult aft d c))) = headers (res c).
Proof.
  unfold sendCrbResult.
  destruct (negb (truthy aft) || strict_eq aft emptyMiddleware); reflexivity.
Qed.

(** The List action once the filter is built and the query has resolved. *)
Lemma getAllHandler_resolved (Res : Resource) (aft : value) (c : ctx)
      (filt : list (string * filterValue)) (l : list doc) :
  buildFilter (schema_paths Res) (query (req c)) = Ok filt ->
  find_exec Res filt (sortOf (query (req c))) = Resolved l ->
  getAllHandler Res aft c
  = sendCrbResult aft (DArray (slice (query (req c)) l))
                  (res_header "X-Total-Count" (List.length l) c).
Proof. intros Hf He. unfold getAllHandler. now rewrite Hf, He. Qed.

(** C3: on a List request whose filter is built and whose query resolves
    with [l]: with [_start] = s and [_end] = e both present and s <= e, the
    array handed to the result dispatcher holds exactly the elements of [l] at
    the indices s to e inclusive, that is e - s + 1 of them, or fewer when [l]
    ends earlier; with [_start] or [_end] absent it is the whole of [l]; and
    the X-Total-Count header is the length of [l] either way. Without an
    after-handler that array is the body sent. *)
Theorem getAll_slice (Res : Resource) (aft : value) (c : ctx)
        (filt : list (string * filterValue)) (l : list doc) :
  buildFilter (schema_paths Res) (query (req c)) = Ok filt ->
  find_exec Res filt (sortOf (query (req c))) = Resolved l ->
  let q := query (req c) in
  let served arr :=
    sendCrbResult aft (DArray arr) (res_header "X-Total-Count" (List.length l) c) in
  (forall sv ev (s e : nat),
      get q "_start" = Some sv -> get q "_end" = Some ev ->
      Number sv = Fin (inject_Z (Z.of_nat s)) ->
      Number ev = Fin (inject_Z (Z.of_nat e)) ->
      (s <= e)%nat ->
      let arr := firstn (e - s + 1) (skipn s l) in
      getAllHandler Res aft c = served arr
      /\ getAllHandler Res emptyMiddleware c
         = (res_send (DArray arr)
                     (res_header "X-Total-Count" (List.length l) c), SEnd)
      /\ (forall j, nth_error arr j =
                    if (j <=? e - s)%nat then nth_error l (s + j) else None)
      /\ List.length arr = Nat.min (e - s + 1) (List.length l - s))
  /\ (get q "_start" = None \/ get q "_end" = None ->
      getAllHandler Res aft c = served l
      /\ getAllHandler Res emptyMiddleware c
         = (res_send (DArray l)
                     (res_header "X-Total-Count" (List.length l) c), SEnd))
  /\ get (headers (res (fst (getAllHandler Res aft c)))) "X-Total-Count"
     = Some (List.length l).
Proof.
  intros Hf He q served.
  assert (Hrun : forall a, getAllHandler Res a c
            = sendCrbResult a (DArray (slice q l))
                            (res_header "X-Total-Count" (List.length l) c)).
  { intro a. now apply getAllHandler_resolved with (filt := filt). }
  split; [|split].
  - intros sv ev s e Hs Hv Hns Hne Hle arr.
    assert (Hslice : slice q l = arr).
    { unfold slice. rewrite Hs, Hv.
      rewrite (filter_index_ext _ (fun i => (s <=? i)%nat && (i <=? e)%nat)).
      - rewrite filter_index_range.
        replace (e + 1 - Nat.max s 0)%nat with (e - s + 1)%nat by lia.
        now replace (s - 0)%nat with s by lia.
      - intro i.
        now rewrite (index_ge_nat i s sv Hns), (index_le_nat i e ev Hne). }
    split; [|split; [|split]].
    + now rewrite Hrun, Hslice.
    + now rewrite Hrun, Hslice.
    + intro j. unfold arr. rewrite nth_error_firstn, nth_error_skipn.
      destruct (Nat.ltb_spec j (e - s + 1)); destruct (Nat.leb_spec j (e - s));
        try lia; reflexivity.
    + unfold arr. now rewrite length_firstn, length_skipn.
  - intros Hnone.
    assert (Hslice : slice q l = l).
    { unfold slice. destruct Hnone as [-> | Hn]; [reflexivity|].
      rewrite Hn. now destruct (get q "_start"). }
    split; now rewrite Hrun, Hslice.
  - rewrite Hrun, sendCrbResult_headers. simpl. reflexivity.
Qed.

(** C9: on a List request with [_start] and [_end] both present and at least
    one of them not a number ([Number] gives NaN), every index comparison
    against that bound is false: the array handed to the result dispatcher is
    empty (and, without an after-handler, is the body sent), while
    X-Total-Count is still the length of the full result, however long that
    is. *)
Theorem getAll_nonnumeric_bounds (Res : Resource) (aft : value) (c : ctx)
        (filt : list (string * filterValue)) (l : list doc) (sv ev : string) :
  buildFilter (schema_paths Res) (query (req c)) = Ok filt ->
  find_exec Res filt (sortOf (query (req c))) = Resolved l ->
  get (query (req c)) "_start" = Some sv ->
  get (query (req c)) "_end" = Some ev ->
  isNaN sv = true \/ isNaN ev = true ->
  (forall i, index_ge i sv && index_le i ev = false)
  /\ getAllHandler Res aft c
     = sendCrbResult aft (DArray [])
                     (res_header "X-Total-Count" (List.length l) c)
  /\ getAllHandler Res emptyMiddleware c
     = (res_send (DArray []) (res_header "X-Total-Count" (List.length l) c),
        SEnd)
  /\ get (headers (res (fst (getAllHandler Res aft c)))) "X-Total-Count"
     = Some (List.length l).
Proof.
  intros Hf He Hs Hv Hnan.
  assert (Hcmp : forall i, index_ge i sv && index_le i ev = false).
  { intro i. unfold index_ge, index_le, isNaN in *.
    destruct Hnan as [H|H].
    - destruct (Number sv); try discriminate. reflexivity.
    - destruct (Number ev); try discriminate. apply andb_false_r. }
  assert (Hslice : slice (query (req c)) l = []).
  { unfold slice. rewrite Hs, Hv. now apply filter_index_never. }
  assert (Hrun : forall a, getAllHandler Res a c
            = sendCrbResult a (DArray [])
                            (res_header "X-Total-Count" (List.length l) c)).
  { intro a. rewrite <- Hslice. now apply getAllHandler_resolved with (filt := filt). }
  split; [exact Hcmp | split; [|split]].
  - apply Hrun.
  - now rewrite Hrun.
  - rewrite Hrun, sendCrbResult_headers. simpl. reflexivity.
Qed.

(** *** The List action: sorting *)

(** C8: the List action gives [query.sort] an argument only when [_sort] and
    [_order] are both present and [_order] is exactly ASC (ascending, 1) or
    exactly DESC (descending, -1); with any other [_order], lowercase asc and
    desc included, nothing is sorted and no error comes of it: the query runs
    unsorted and its result is dispatched as usual. *)
Theorem sort_only_ASC_DESC (Res : Resource) (aft : value) (c : ctx) :
  let q := query (req c) in
  (forall f d,
      sortOf q = Some (f, d) ->
      get q "_sort" = Some f
      /\ ((get q "_order" = Some "ASC" /\ d = 1)
          \/ (get q "_order" = Some "DESC" /\ d = -1)))
  /\ (forall o,
         get q "_order" = Some o -> o <> "ASC" -> o <> "DESC" ->
         sortOf q = None
         /\ forall filt l,
             buildFilter (schema_paths Res) q = Ok filt ->
             find_exec Res filt None = Resolved l ->
             getAllHandler Res aft c
             = sendCrbResult aft (DArray (slice q l))
                             (res_header "X-Total-Count" (List.length l) c)).
Proof.
  intro q. split.
  - intros f d. unfold sortOf.
    destruct (get q "_sort") as [s|]; [|discriminate].
    destruct (get q "_order") as [o|]; [|discriminate].
    destruct (truthy (VStr s) && truthy (VStr o)); [|discriminate].
    destruct (String.eqb_spec o "ASC") as [->|_].
    + intro H. injection H as <- <-. auto.
    + destruct (String.eqb_spec o "DESC") as [->|_]; [|discriminate].
      intro H. injection H as <- <-. auto.
  - intros o Ho Hasc Hdesc.
    assert (Hsort : sortOf q = None).
    { unfold sortOf. rewrite Ho.
      destruct (get q "_sort") as [s|]; [|reflexivity].
      destruct (truthy (VStr s) && truthy (VStr o)); [|reflexivity].
      destruct (String.eqb_spec o "ASC"); [contradiction|].
      destruct (String.eqb_spec o "DESC"); [contradiction|]. reflexivity. }
    split; [exact Hsort|].
    intros filt l Hf He. apply (getAllHandler_resolved Res aft c filt l Hf).
    fold q. now rewrite Hsort.
Qed.

(** *** Data-access failures *)

(** A rejected query of the List action is forwarded as a 400. *)
Lemma getAllHandler_rejected (Res : Resource) (aft : value) (c : ctx)
      (filt : list (string * filterValue)) (e : error) :
  buildFilter (schema_paths Res) (query (req c)) = Ok filt ->
  find_exec Res filt (sortOf (query (req c))) = Rejected e ->
  getAllHandler Res aft c = (c, SNextErr (Err 400 (message e))).
Proof. intros Hf He. unfold getAllHandler. now rewrite Hf, He. Qed.

Lemma getSingleHandler_rejected (Res : Resource) (aft : value) (c : ctx)
      (e : error) :
  findOne_exec Res (get (params (req c)) "id") = Rejected e ->
  getSingleHandler Res aft c = (c, SNextErr (Err 400 (message e))).
Proof. intro He. unfold getSingleHandler. now rewrite He. Qed.

Lemma putHandler_rejected (Res : Resource) (aft : value) (c : ctx) (e : error) :
  findByIdAndUpdate Res (get (params (req c)) "id") (body (req c)) = Rejected e ->
  putHandler Res aft c = (c, SNextErr (Err 400 (message e))).
Proof. intro He. unfold putHandler. now rewrite He. Qed.

Lemma postHandler_rejected (Res : Resource) (aft : value) (c : ctx) (e : error) :
  save Res (body (req c)) = Rejected e ->
  postHandler Res aft c = (c, SNextErr (Err 400 (message e))).
Proof. intro He. unfold postHandler. now rewrite He. Qed.

(** The Delete action has no rejection handler: nothing is sent and [next]
    is not called. *)
Lemma deleteHandler_rejected (Res : Resource) (aft : value) (c : ctx) (e : error) :
  find_remove_exec Res (get (params (req c)) "id") = Rejected e ->
  deleteHandler Res aft c = (c, SEnd).
Proof. intro He. unfold deleteHandler. now rewrite He. Qed.

(** An error forwarded by the action ends the chain: the after-handler is
    not run, whatever it is. *)
Lemma chain_error_skips_after (bef aft : value) (a : stage) (c c1 c2 : ctx)
      (e : error) :
  call bef c = (c1, SNext) ->
  run_stage a c1 = (c2, SNextErr e) ->
  runChain [SValue bef; a; SValue aft] c = (c2, SNextErr e).
Proof.
  intros Hb Ha. cbn [runChain run_stage]. now rewrite Hb, Ha.
Qed.

(** *** The List action: the filter *)

Lemma get_set_same {A} (o : list (string * A)) (k : string) (v : A) :
  get (set o k v) k = Some v.
Proof.
  induction o as [|[k' v'] t IH]; simpl.
  - now rewrite String.eqb_refl.
  - destruct (String.eqb_spec k' k) as [->|Hk]; simpl.
    + now rewrite String.eqb_refl.
    + destruct (String.eqb_spec k' k); [contradiction | exact IH].
Qed.

Lemma get_set_other {A} (o : list (string * A)) (k k0 : string) (v : A) :
  k <> k0 -> get (set o k v) k0 = get o k0.
Proof.
  intro Hne. induction o as [|[k' v'] t IH]; simpl.
  - destruct (String.eqb_spec k k0); [contradiction | reflexivity].
  - destruct (String.eqb_spec k' k) as [->|Hk]; simpl.
    + destruct (String.eqb_spec k k0); [contradiction | reflexivity].
    + destruct (String.eqb_spec k' k0); [reflexivity | exact IH].
Qed.

Lemma get_In_keys {A} (o : list (string * A)) (k : string) (v : A) :
  get o k = Some v -> In k (Object_keys o).
Proof.
  induction o as [|[k' v'] t IH]; simpl; [discriminate|].
  destruct (String.eqb_spec k' k) as [->|_]; auto.
Qed.

(** An entry already in the filter stays, as long as a later assignment to
    its key can only repeat it. *)
Lemma fillFilter_keeps (filters : list string) (q : list (string * string))
      (acc filt : list (string * filterValue)) (f : string) (v : filterValue) :
  fillFilter filters q acc = Ok filt ->
  get acc f = Some v ->
  (forall val, get q f = Some val -> filterValueOf val = Ok v) ->
  get filt f = Some v.
Proof.
  revert acc. induction filters as [|g rest IH]; intros acc Hfill Hacc Hq.
  - simpl in Hfill. injection Hfill as <-. exact Hacc.
  - simpl in Hfill.
    destruct (get q g) as [val|] eqn:Hg; [|discriminate].
    destruct (filterValueOf val) as [vg|] eqn:Hv; [|discriminate].
    apply (IH _ Hfill); [|exact Hq].
    destruct (String.eqb_spec g f) as [->|Hne].
    + rewrite get_set_same. rewrite (Hq val Hg) in Hv. congruence.
    + now rewrite get_set_other.
Qed.

Lemma fillFilter_get (filters : list string) (q : list (string * string))
      (acc filt : list (string * filterValue)) (f val : string) :
  fillFilter filters q acc = Ok filt ->
  In f filters ->
  get q f = Some val ->
  exists v, filterValueOf val = Ok v /\ get filt f = Some v.
Proof.
  revert acc. induction filters as [|g rest IH]; intros acc Hfill Hin Hq.
  - destruct Hin.
  - simpl in Hfill.
    destruct (get q g) as [val'|] eqn:Hg; [|discriminate].
    destruct (filterValueOf val') as [vg|] eqn:Hv; [|discriminate].
    destruct (String.eqb_spec g f) as [->|Hne].
    + rewrite Hq in Hg. injection Hg as <-.
      exists vg. split; [exact Hv|].
      apply (fillFilter_keeps rest q _ filt f vg Hfill).
      * apply get_set_same.
      * intros val0 H0. rewrite Hq in H0. now injection H0 as <-.
    + destruct Hin as [->|Hin]; [contradiction|].
      now apply (IH _ Hfill).
Qed.

Lemma buildFilter_get (props : list string) (q : list (string * string))
      (filt : list (string * filterValue)) (f val : string) :
  buildFilter props q = Ok filt ->
  get q f = Some val ->
  includes props f = true ->
  exists v, filterValueOf val = Ok v /\ get filt f = Some v.
Proof.
  intros Hb Hq Hp. unfold buildFilter in Hb.
  apply (fillFilter_get _ q [] filt f val Hb); [|exact Hq].
  apply filter_In. split; [|exact Hp].
  now apply get_In_keys with (v := val).
Qed.

(** The three branches, by the two tests the code makes. *)
Lemma filterValueOf_cases (val : string) :
  (isNaN val = false /\ filterValueOf val = Ok (FNumber (Number val)))
  \/ (isNaN val = true /\ isBoolWord val = true
      /\ filterValueOf val = Ok (FBool (String.eqb (toLowerCase val) "true")))
  \/ (isNaN val = true /\ isBoolWord val = false
      /\ filterValueOf val = new_RegExp val "i").
Proof.
  unfold filterValueOf, isBoolWord, indexOf. cbn [indexOf_from strict_eq].
  destruct (isNaN val); cbn [negb]; [|left; auto].
  right.
  rewrite (String.eqb_sym "true"), (String.eqb_sym "false").
  destruct (String.eqb (toLowerCase val) "true"); cbn [orb].
  - left. auto.
  - destruct (String.eqb (toLowerCase val) "false"); cbn [orb negb Z.eqb];
      [left | right]; auto.
Qed.

(** *** Which strings are numbers *)

Lemma digit_facts (a : ascii) :
  isDigit a = true ->
  isWhiteSpace a = false
  /\ Ascii.eqb a "+" = false /\ Ascii.eqb a "-" = false
  /\ Ascii.eqb a "x" = false /\ Ascii.eqb a "X" = false
  /\ Ascii.eqb a "o" = false /\ Ascii.eqb a "O" = false
  /\ Ascii.eqb a "b" = false /\ Ascii.eqb a "B" = false
  /\ Ascii.eqb a "I" = false.
Proof.
  destruct a as [[] [] [] [] [] [] [] []]; cbv; intro H;
    try discriminate H; repeat split.
Qed.

Lemma takeWhile_all {A} (p : A -> bool) (l : list A) :
  forallb p l = true -> takeWhile p l = l /\ dropWhile p l = [].
Proof.
  induction l as [|x t IH]; simpl; [auto|].
  intro H. apply andb_true_iff in H. destruct H as [Hx Ht].
  rewrite Hx. destruct (IH Ht) as [-> ->]. auto.
Qed.

Lemma digit_range (a : ascii) :
  isDigit a = true -> (48 <= nat_of_ascii a <= 57)%nat.
Proof.
  unfold isDigit. intro H. apply andb_true_iff in H.
  rewrite !Nat.leb_le in H. exact H.
Qed.

(** No digit is a byte of a white space character of two or three bytes. *)
Lemma digit_not_space (a : ascii) :
  isDigit a = true ->
  (forall b, isWhiteSpace2 a b = false /\ isWhiteSpace2 b a = false)
  /\ (forall b c, isWhiteSpace3 a b c = false /\ isWhiteSpace3 c b a = false).
Proof.
  intro H. apply digit_range in H.
  split; [intro b | intros b c]; split; apply not_true_is_false;
    unfold isWhiteSpace2, isWhiteSpace3; intro E;
    repeat (rewrite orb_true_iff in E || rewrite andb_true_iff in E
            || rewrite Nat.eqb_eq in E || rewrite Nat.leb_le in E);
    lia.
Qed.

Lemma trim_digits (l : list ascii) :
  forallb isDigit l = true -> trim l = l.
Proof.
  intro H. unfold trim.
  assert (Hd : forall l', forallb isDigit l' = true ->
                          trimStart l' = l' /\ trimEnd_rev l' = l').
  { intros [|x t] Hl; [split; reflexivity|]. cbn [forallb] in Hl.
    apply andb_true_iff in Hl. destruct Hl as [Hx _].
    destruct (digit_facts x Hx) as (Hw & _).
    destruct (digit_not_space x Hx) as (H2 & H3).
    cbn [trimStart trimEnd_rev]. rewrite Hw.
    destruct t as [|b [|c t3]]; [split; reflexivity | |].
    - destruct (H2 b) as [-> ->]. split; reflexivity.
    - destruct (H2 b) as [-> ->]. destruct (H3 b c) as [-> ->].
      split; reflexivity. }
  assert (Hr : forallb isDigit (rev l) = true).
  { apply forallb_forall. intros x Hx. apply in_rev in Hx.
    revert x Hx. now apply forallb_forall. }
  rewrite (proj1 (Hd l H)), (proj2 (Hd (rev l) Hr)). apply rev_involutive.
Qed.

Lemma binary64_not_NaN (q : Q) : binary64 q <> NaN.
Proof.
  unfold binary64, binary64_pos.
  destruct (Qnum q); try discriminate.
  repeat match goal with
         | |- context [if ?b then _ else _] => destruct b
         end; discriminate.
Qed.

(** A non-empty string of decimal digits is a number. *)
Lemma purelyNumeric_is_number (s : string) :
  purelyNumeric s = true -> isNaN s = false.
Proof.
  unfold purelyNumeric. intro H. apply andb_true_iff in H.
  destruct H as [Hne Hall].
  unfold isNaN, Number. rewrite (trim_digits _ Hall).
  destruct s as [|a s']; [discriminate Hne|].
  cbn [list_ascii_of_string] in *.
  remember (list_ascii_of_string s') as t eqn:Et.
  pose proof Hall as Hall'. cbn [forallb] in Hall'.
  apply andb_true_iff in Hall'. destruct Hall' as [Ha Ht].
  destruct (digit_facts a Ha) as (_ & Hp & Hm & _ & _ & _ & _ & _ & _ & HI).
  assert (Hnd : nonDecimal (a :: t) = None).
  { unfold nonDecimal. destruct t as [|x ds]; [reflexivity|].
    cbn [forallb] in Ht. apply andb_true_iff in Ht. destruct Ht as [Hx _].
    destruct (digit_facts x Hx) as (_ & _ & _ & H1 & H2 & H3 & H4 & H5 & H6 & _).
    rewrite H1, H2, H3, H4, H5, H6. cbn [orb]. now destruct (Ascii.eqb a "0"). }
  rewrite Hnd. unfold signOf. rewrite Hp, Hm.
  unfold strUnsigned, list_ascii_eqb, Infinity_chars.
  cbn [string_of_list_ascii list_ascii_of_string String.eqb]. rewrite HI.
  unfold unsignedDecimal.
  destruct (takeWhile_all isDigit (a :: t) Hall) as [-> ->].
  cbn [app exponentPart].
  match goal with
  | |- context [binary64 ?x] =>
      pose proof (binary64_not_NaN x); destruct (binary64 x)
  end; congruence.
Qed.

Lemma lowerChar_t : forall a, lowerChar a = "t"%char -> a = "t"%char \/ a = "T"%char.
Proof. lower_cases. Qed.
Lemma lowerChar_r : forall a, lowerChar a = "r"%char -> a = "r"%char \/ a = "R"%char.
Proof. lower_cases. Qed.
Lemma lowerChar_u : forall a, lowerChar a = "u"%char -> a = "u"%char \/ a = "U"%char.
Proof. lower_cases. Qed.
Lemma lowerChar_e : forall a, lowerChar a = "e"%char -> a = "e"%char \/ a = "E"%char.
Proof. lower_cases. Qed.
Lemma lowerChar_f : forall a, lowerChar a = "f"%char -> a = "f"%char \/ a = "F"%char.
Proof. lower_cases. Qed.
Lemma lowerChar_a : forall a, lowerChar a = "a"%char -> a = "a"%char \/ a = "A"%char.
Proof. lower_cases. Qed.
Lemma lowerChar_l : forall a, lowerChar a = "l"%char -> a = "l"%char \/ a = "L"%char.
Proof. lower_cases. Qed.
Lemma lowerChar_s : forall a, lowerChar a = "s"%char -> a = "s"%char \/ a = "S"%char.
Proof. lower_cases. Qed.

(** "true" and "false", in any case, are not numbers. *)
Lemma isBoolWord_not_number (s : string) :
  isBoolWord s = true -> isNaN s = true.
Proof.
  unfold isBoolWord. intro H. apply orb_true_iff in H.
  destruct H as [H|H]; apply String.eqb_eq in H.
  - destruct s as [|a1 [|a2 [|a3 [|a4 [|a5 v]]]]]; try discriminate H.
    cbn [toLowerCase] in H. injection H as H1 H2 H3 H4.
    destruct (lowerChar_t _ H1) as [-> | ->];
      destruct (lowerChar_r _ H2) as [-> | ->];
      destruct (lowerChar_u _ H3) as [-> | ->];
      destruct (lowerChar_e _ H4) as [-> | ->]; reflexivity.
  - destruct s as [|a1 [|a2 [|a3 [|a4 [|a5 [|a6 v]]]]]]; try discriminate H.
    cbn [toLowerCase] in H. injection H as H1 H2 H3 H4 H5.
    destruct (lowerChar_f _ H1) as [-> | ->];
      destruct (lowerChar_a _ H2) as [-> | ->];
      destruct (lowerChar_l _ H3) as [-> | ->];
      destruct (lowerChar_s _ H4) as [-> | ->];
      destruct (lowerChar_e _ H5) as [-> | ->]; reflexivity.
Qed.

(** C4, as the code has it by design: a query value that is not blank and
    whose name is a model field is entered into the filter as the number
    [Number(val)] when [isNaN(val)] is false; otherwise as a boolean when it
    is "true" or "false" up to case; otherwise as the case-insensitive regular
    expression built from it, when that compiles. The three cases exclude each
    other and cover every such string; every non-empty string of digits falls
    in the first, and "true"/"false" in any case never do. *)
Theorem query_value_three_way (val : string) :
  isBlank val = false ->
  ((isNaN val = false /\ filterValueOf val = Ok (FNumber (Number val)))
   \/ (isNaN val = true /\ isBoolWord val = true
       /\ filterValueOf val = Ok (FBool (String.eqb (toLowerCase val) "true")))
   \/ (isNaN val = true /\ isBoolWord val = false
       /\ filterValueOf val = new_RegExp val "i"))
  /\ (purelyNumeric val = true -> isNaN val = false)
  /\ (isBoolWord val = true -> isNaN val = true)
  /\ (forall props q filt f,
         buildFilter props q = Ok filt ->
         get q f = Some val ->
         includes props f = true ->
         exists v, filterValueOf val = Ok v /\ get filt f = Some v).
Proof.
  intros _.
  split; [apply filterValueOf_cases|].
  split; [apply purelyNumeric_is_number|].
  split; [apply isBoolWord_not_number|].
  intros props q filt f. apply buildFilter_get.
Qed.

(** ** Further properties of helpers.js and index.js *)

(** *** What validation accepts *)

Lemma indexOf_from_present (l : list string) (v : value) (i : Z) :
  indexOf_from l v i <> -1 -> exists m, In m l /\ v = VStr m.
Proof.
  revert i. induction l as [|x t IH]; intros i H; cbn [indexOf_from] in H.
  - now contradiction H.
  - destruct (strict_eq (VStr x) v) eqn:E.
    + apply strict_eq_VStr_l in E. exists x. split; [now left | exact E].
    + destruct (IH _ H) as (m & Hm & Hv). exists m. split; [now right | exact Hv].
Qed.

Lemma wellFormed_not_malformed (r : RouteObject) :
  wellFormed r <-> ~ malformed r.
Proof.
  unfold wellFormed, malformed. split.
  - intros ((m & Hm & Hv) & Hs & Hc) [H|[H|H]]; try congruence.
    now apply (H m Hm).
  - intro H. repeat split.
    + apply (indexOf_from_present allowedMethods (method r) 0).
      intro E. apply H. left. now apply indexOf_allowedMethods.
    + destruct (isString (route r)); [reflexivity | exfalso; auto].
    + destruct (callable (function r)); [reflexivity | exfalso; auto].
Qed.

Lemma invalidRoute_false_wellFormed (r : RouteObject) :
  invalidRoute r = false <-> wellFormed r.
Proof.
  rewrite wellFormed_not_malformed, <- invalidRoute_malformed.
  destruct (invalidRoute r); split; intro H; congruence.
Qed.

(** X1: [validateRoutes] returns normally exactly on the lists all of whose
    entries have one of the four methods as a primitive string, a string as
    route, primitive or object, and a handler that [isFunction] accepts, that
    is one whose [{}.toString] tag is [[object Function]]; in particular on
    the empty list. *)
Theorem validateRoutes_accepts_iff (routes : list RouteObject) :
  validateRoutes routes = Ok tt
  <-> Forall (fun r =>
                (exists m, In m allowedMethods /\ method r = VStr m)
                /\ isString (route r) = true
                /\ isFunction (function r) = true) routes.
Proof.
  assert (Hw : forall r,
             wellFormed r
             <-> (exists m, In m allowedMethods /\ method r = VStr m)
                 /\ isString (route r) = true
                 /\ isFunction (function r) = true).
  { intro r. unfold wellFormed. now rewrite isFunction_callable. }
  induction routes as [|r t IH]; simpl.
  - split; [constructor | reflexivity].
  - destruct (invalidRoute r) eqn:E.
    + split; [discriminate|]. intro H. inversion H as [|? ? Hr _]; subst.
      apply Hw, invalidRoute_false_wellFormed in Hr. congruence.
    + rewrite IH. split.
      * intro H. constructor; [|exact H].
        now apply Hw, invalidRoute_false_wellFormed.
      * intro H. now inversion H.
Qed.

Lemma validateRoutes_wellFormed (routes : list RouteObject) :
  validateRoutes routes = Ok tt <-> Forall wellFormed routes.
Proof.
  induction routes as [|r t IH]; simpl.
  - split; [constructor | reflexivity].
  - destruct (invalidRoute r) eqn:E.
    + split; [discriminate|]. intro H. inversion H as [|? ? Hr _]; subst.
      apply invalidRoute_false_wellFormed in Hr. congruence.
    + rewrite IH. split.
      * intro H. constructor; [now apply invalidRoute_false_wellFormed | exact H].
      * intro H. now inversion H.
Qed.

Lemma validateRoutes_ok_tt (routes : list RouteObject) :
  (exists u, validateRoutes routes = Ok u) -> validateRoutes routes = Ok tt.
Proof. intros (u & H). now destruct u. Qed.

(** *** What a successful build leaves in the router *)

Lemma run_buildRoutes_ok_inv (Res : Resource) (args : Args) (r : router) :
  run_buildRoutes Res args = (r, Ok tt) ->
  validateRoutes (orEmpty (extensions args)) = Ok tt
  /\ validateRoutes (orEmpty (before args)) = Ok tt
  /\ validateRoutes (orEmpty (after args)) = Ok tt
  /\ r = (map (extensionRoute (orEmpty (before args)) (orEmpty (after args)))
              (orEmpty (extensions args))
          ++ defaultRoutes Res (orEmpty (before args)) (orEmpty (after args)))%list.
Proof.
  rewrite run_buildRoutes_cases.
  destruct (validateRoutes (orEmpty (extensions args))) as [[]|];
    destruct (validateRoutes (orEmpty (before args))) as [[]|];
    destruct (validateRoutes (orEmpty (after args))) as [[]|];
    intro H; try discriminate H.
  injection H as <-. auto.
Qed.

Lemma extractMiddleware_callable (routes : list RouteObject) (m p : value) :
  Forall wellFormed routes -> callable (extractMiddleware routes m p) = true.
Proof.
  intro H. rewrite extractMiddleware_first.
  destruct (filter _ routes) as [|r t] eqn:E; [reflexivity|].
  assert (Hin : In r (filter (fun r => strict_eq (method r) m
                                       && strict_eq (route r) p) routes)).
  { rewrite E. now left. }
  apply filter_In in Hin. destruct Hin as [Hin _].
  rewrite Forall_forall in H. now destruct (H r Hin) as (_ & _ & Hc).
Qed.

(** X2: when [buildRoutes] returns, the router holds one registration per
    extension and five more; every registration is under one of the four
    methods and a string route, and every handler in it that comes from the
    configuration or from [extractMiddleware] is a function, so that calling
    it is never a type error. *)
Theorem registered_stages_callable (Res : Resource) (args : Args) (r : router) :
  run_buildRoutes Res args = (r, Ok tt) ->
  List.length r = (List.length (orEmpty (extensions args)) + 5)%nat
  /\ Forall (fun reg =>
               (exists m, In m allowedMethods /\ rmethod reg = VStr m)
               /\ isString (rpath reg) = true
               /\ forall v, In (SValue v) (rhandlers reg) -> callable v = true) r.
Proof.
  intro H. apply run_buildRoutes_ok_inv in H.
  destruct H as (He & Hb & Ha & ->).
  apply validateRoutes_wellFormed in He, Hb, Ha.
  split; [now rewrite length_app, length_map|].
  apply Forall_app. split.
  - apply Forall_forall. intros reg Hreg. apply in_map_iff in Hreg.
    destruct Hreg as (ex & <- & Hex).
    rewrite Forall_forall in He. destruct (He ex Hex) as (Hm & Hs & Hc).
    split; [exact Hm | split; [exact Hs|]].
    intros v [Hv|[Hv|[Hv|[]]]]; injection Hv as <-;
      [now apply extractMiddleware_callable | exact Hc
       | now apply extractMiddleware_callable].
  - unfold defaultRoutes, defaultRoute.
    repeat (apply Forall_cons || apply Forall_nil);
      (split; [eexists; split; [|reflexivity]; simpl; tauto |];
       split; [reflexivity|];
       intros v [Hv|[Hv|[Hv|[]]]]; try discriminate Hv; injection Hv as <-;
       now apply extractMiddleware_callable).
Qed.

(** *** The actions within their chains *)

Lemma runChain_last (h : stage) (c : ctx) :
  runChain [h] c = run_stage h c.
Proof.
  cbn [runChain]. destruct (run_stage h c) as [c' [| |]]; reflexivity.
Qed.

Lemma sendCrbResult_user (i : nat) (body0 : handler) (d : data) (c : ctx) :
  sendCrbResult (VFun (FnUser i body0)) d c = (set_crbResult d c, SNext).
Proof. reflexivity. Qed.

(** X3: in a default chain with a pass-through before-handler and a caller's
    after-handler, an action whose data call resolves sends nothing itself:
    the after-handler runs on the request with the result in [crbResult] (and,
    for the List action, on the response with X-Total-Count set), and what it
    does is the outcome of the chain. *)
Theorem deferred_handoff (Res : Resource) (i : nat) (body0 : handler) (c : ctx) :
  let h := VFun (FnUser i body0) in
  (forall filt l,
      buildFilter (schema_paths Res) (query (req c)) = Ok filt ->
      find_exec Res filt (sortOf (query (req c))) = Resolved l ->
      runChain (defaultChain getAll Res emptyMiddleware h) c
      = body0 (set_crbResult (DArray (slice (query (req c)) l))
                             (res_header "X-Total-Count" (List.length l) c)))
  /\ (forall d,
         findOne_exec Res (get (params (req c)) "id") = Resolved d ->
         runChain (defaultChain getSingle Res emptyMiddleware h) c
         = body0 (set_crbResult d c))
  /\ (forall d,
         findByIdAndUpdate Res (get (params (req c)) "id") (body (req c))
           = Resolved d ->
         runChain (defaultChain put Res emptyMiddleware h) c
         = body0 (set_crbResult d c))
  /\ (forall d,
         save Res (body (req c)) = Resolved d ->
         runChain (defaultChain post Res emptyMiddleware h) c
         = body0 (set_crbResult d c))
  /\ (forall d,
         find_remove_exec Res (get (params (req c)) "id") = Resolved d ->
         runChain (defaultChain delete Res emptyMiddleware h) c
         = body0 (set_crbResult d c)).
Proof.
  cbv zeta. unfold defaultChain.
  repeat split; intros;
    cbn [runChain run_stage call emptyMiddleware];
    unfold getAllHandler, getSingleHandler, putHandler, postHandler, deleteHandler;
    repeat match goal with H : _ = _ |- _ => rewrite H; clear H end;
    rewrite sendCrbResult_user;
    match goal with |- context [body0 ?x] => destruct (body0 x) as [c' [| |]] end;
    reflexivity.
Qed.

(** What an action does, by the outcome of its data call. *)
Lemma action_outcomes (a : action) (Res : Resource) (aft : value) (c : ctx) :
  (exists e, run_stage (SAction a Res aft) c = (c, SNextErr e))
  \/ (a = delete /\ run_stage (SAction a Res aft) c = (c, SEnd))
  \/ (exists d c0,
         req c0 = req c /\ sent (res c0) = sent (res c)
         /\ run_stage (SAction a Res aft) c = sendCrbResult aft d c0).
Proof.
  destruct a; cbn [run_stage];
    unfold getAllHandler, getSingleHandler, putHandler, postHandler, deleteHandler.
  - destruct (buildFilter (schema_paths Res) (query (req c))) as [filt|e];
      [|left; now exists e].
    destruct (find_exec Res filt (sortOf (query (req c)))) as [l|e|e];
      [|left; eexists; reflexivity|left; eexists; reflexivity].
    right. right. eexists. eexists. split; [|split; [|reflexivity]]; reflexivity.
  - destruct (findOne_exec Res (get (params (req c)) "id")) as [d|e|e];
      [|left; eexists; reflexivity|left; eexists; reflexivity].
    right. right. exists d, c. auto.
  - destruct (findByIdAndUpdate Res (get (params (req c)) "id") (body (req c)))
      as [d|e|e]; [|left; eexists; reflexivity|left; eexists; reflexivity].
    right. right. exists d, c. auto.
  - destruct (save Res (body (req c))) as [d|e|e];
      [|left; eexists; reflexivity|left; eexists; reflexivity].
    right. right. exists d, c. auto.
  - destruct (find_remove_exec Res (get (params (req c)) "id")) as [d|e|e];
      [|right; left; auto|left; eexists; reflexivity].
    right. right. exists d, c. auto.
Qed.

(** X4: whatever the model does, one run of a default action sends at most
    one body. When it forwards an error it has changed nothing; when it
    invokes the continuation it has sent nothing and [crbResult] is set; when
    it does neither it has sent exactly one body, or it is the Delete action
    and has changed nothing. It never alters the query, the route parameters
    or the body of the request. *)
Theorem action_effects (a : action) (Res : Resource) (aft : value) (c : ctx) :
  let out := run_stage (SAction a Res aft) c in
  (forall e, snd out = SNextErr e -> fst out = c)
  /\ (snd out = SNext ->
      sent (res (fst out)) = sent (res c) /\ crbResult (req (fst out)) <> None)
  /\ (snd out = SEnd ->
      (exists d, sent (res (fst out)) = (sent (res c) ++ [d])%list
                 /\ req (fst out) = req c)
      \/ (a = delete /\ fst out = c))
  /\ query (req (fst out)) = query (req c)
  /\ params (req (fst out)) = params (req c)
  /\ body (req (fst out)) = body (req c).
Proof.
  cbv zeta.
  destruct (action_outcomes a Res aft c)
    as [(e & ->) | [(Ha & ->) | (d & c0 & Hreq & Hsent & ->)]]; cbn [fst snd].
  - repeat split; try discriminate; auto.
  - repeat split; try discriminate; auto.
  - unfold sendCrbResult.
    destruct (negb (truthy aft) || strict_eq aft emptyMiddleware);
      cbn [fst snd res_send set_crbResult req res sent crbResult query params body];
      rewrite ?Hreq, ?Hsent.
    + repeat split; try discriminate; auto.
      intros _. left. exists d. auto.
    + repeat split; try discriminate; auto.
Qed.

(** X5: an after-handler that answers with the carried result makes a
    default chain leave the same response, and the same signal, as the chain
    with no after-handler at all, for every action and whatever the data call
    does. *)
Theorem echo_after_handler_same_response (a : action) (Res : Resource) (c : ctx) :
  let direct := runChain (defaultChain a Res emptyMiddleware emptyMiddleware) c in
  let deferred := runChain (defaultChain a Res emptyMiddleware sendCarried) c in
  res (fst deferred) = res (fst direct) /\ snd deferred = snd direct.
Proof.
  cbv zeta. unfold defaultChain.
  cbn [runChain run_stage call emptyMiddleware].
  destruct a; cbn [run_stage];
    unfold getAllHandler, getSingleHandler, putHandler, postHandler, deleteHandler;
    repeat match goal with
           | |- context [match ?x with _ => _ end] =>
               match x with
               | buildFilter _ _ => destruct x
               | find_exec _ _ _ => destruct x
               | findOne_exec _ _ => destruct x
               | findByIdAndUpdate _ _ _ => destruct x
               | save _ _ => destruct x
               | find_remove_exec _ _ => destruct x
               end
           end; split; reflexivity.
Qed.

(** *** The List action: bounds out of the ordinary *)

Lemma index_ge_Z (i : nat) (a : Z) (sv : string) :
  Number sv = Fin (inject_Z a) -> index_ge i sv = (a <=? Z.of_nat i).
Proof. intro H. unfold index_ge. now rewrite H, Qle_bool_inject_Z. Qed.

Lemma index_le_Z (i : nat) (b : Z) (ev : string) :
  Number ev = Fin (inject_Z b) -> index_le i ev = (Z.of_nat i <=? b).
Proof. intro H. unfold index_le. now rewrite H, Qle_bool_inject_Z. Qed.

(** X6: with integer [_start] = a and [_end] = b, of any sign and in any
    order, the List action keeps the indices from max(a, 0) to b: nothing
    when b is below a or below 0, and the first b + 1 elements when a is 0 or
    negative. No error comes of such bounds. *)
Theorem slice_integer_bounds (q : list (string * string)) (l : list doc)
        (sv ev : string) (a b : Z) :
  get q "_start" = Some sv -> get q "_end" = Some ev ->
  Number sv = Fin (inject_Z a) -> Number ev = Fin (inject_Z b) ->
  slice q l = firstn (Z.to_nat (b + 1 - Z.max a 0)) (skipn (Z.to_nat a) l)
  /\ (b < a \/ b < 0 -> slice q l = [])
  /\ (a <= 0 -> slice q l = firstn (Z.to_nat (b + 1)) l).
Proof.
  intros Hs He Ha Hb.
  assert (Hmain : slice q l
                  = firstn (Z.to_nat (b + 1 - Z.max a 0)) (skipn (Z.to_nat a) l)).
  { unfold slice. rewrite Hs, He.
    rewrite (filter_index_ext _
               (fun i => (Z.to_nat a <=? i)%nat && (i <=? Z.to_nat b)%nat
                         && (0 <=? b))).
    - destruct (Z.leb_spec 0 b) as [Hb0|Hb0].
      + rewrite (filter_index_ext _
               (fun i => (Z.to_nat a <=? i)%nat && (i <=? Z.to_nat b)%nat))
          by (intro i; apply andb_true_r).
        rewrite filter_index_range.
        replace (Z.to_nat b + 1 - Nat.max (Z.to_nat a) 0)%nat
          with (Z.to_nat (b + 1 - Z.max a 0)) by lia.
        now replace (Z.to_nat a - 0)%nat with (Z.to_nat a) by lia.
      + rewrite filter_index_never by (intro i; apply andb_false_r).
        now replace (Z.to_nat (b + 1 - Z.max a 0)) with 0%nat by lia.
    - intro i. rewrite (index_ge_Z i a sv Ha), (index_le_Z i b ev Hb).
      destruct (Z.leb_spec a (Z.of_nat i)); destruct (Z.leb_spec (Z.of_nat i) b);
        destruct (Nat.leb_spec (Z.to_nat a) i);
        destruct (Nat.leb_spec i (Z.to_nat b));
        destruct (Z.leb_spec 0 b); cbn [andb]; try reflexivity; lia. }
  split; [exact Hmain | split].
  - intro H. rewrite Hmain.
    now replace (Z.to_nat (b + 1 - Z.max a 0)) with 0%nat by lia.
  - intro H. rewrite Hmain.
    replace (Z.to_nat a) with 0%nat by lia.
    now replace (b + 1 - Z.max a 0) with (b + 1) by lia.
Qed.

(** *** The List action: when it sorts *)

(** X7: with a non-empty [_sort] = f, [_order] = ASC makes the List action
    sort by f ascending and DESC descending: that is the argument the query
    gets, and the result of the sorted query is what is dispatched. With
    [_sort] empty or absent nothing is sorted, whatever [_order] is. *)
Theorem sort_applied (Res : Resource) (aft : value) (c : ctx) (f : string) :
  let q := query (req c) in
  (get q "_sort" = Some f -> f <> "" ->
   forall o d, (o = "ASC" /\ d = 1) \/ (o = "DESC" /\ d = -1) ->
     get q "_order" = Some o ->
     sortOf q = Some (f, d)
     /\ forall filt l,
         buildFilter (schema_paths Res) q = Ok filt ->
         find_exec Res filt (Some (f, d)) = Resolved l ->
         getAllHandler Res aft c
         = sendCrbResult aft (DArray (slice q l))
                         (res_header "X-Total-Count" (List.length l) c))
  /\ (get q "_sort" = Some "" \/ get q "_sort" = None -> sortOf q = None).
Proof.
  intro q. split.
  - intros Hs Hf o d Hod Ho.
    assert (Hsort : sortOf q = Some (f, d)).
    { unfold sortOf. rewrite Hs, Ho. cbn [truthy].
      destruct (String.eqb_spec f "") as [|_]; [contradiction|].
      destruct Hod as [[-> ->]|[-> ->]]; reflexivity. }
    split; [exact Hsort|].
    intros filt l Hfilt Hfind.
    apply (getAllHandler_resolved Res aft c filt l Hfilt).
    fold q. now rewrite Hsort.
  - unfold sortOf. intros [-> | ->]; [|reflexivity].
    now destruct (get q "_order").
Qed.

(** *** The List action: which parameters reach the filter *)

Lemma get_app_skip {A} (q1 q2 : list (string * A)) (k f : string) (v : A) :
  f <> k -> get (q1 ++ (k, v) :: q2) f = get (q1 ++ q2) f.
Proof.
  intro Hne. induction q1 as [|[k' v'] t IH]; simpl.
  - destruct (String.eqb_spec k f); [congruence | reflexivity].
  - destruct (String.eqb_spec k' f); [reflexivity | exact IH].
Qed.

Lemma fillFilter_ext (filters : list string) (q q' : list (string * string))
      (acc : list (string * filterValue)) :
  (forall f, In f filters -> get q f = get q' f) ->
  fillFilter filters q acc = fillFilter filters q' acc.
Proof.
  revert acc. induction filters as [|g rest IH]; intros acc H; [reflexivity|].
  cbn [fillFilter]. rewrite <- (H g (or_introl eq_refl)).
  destruct (get q g) as [val|]; [|reflexivity].
  destruct (filterValueOf val); [|reflexivity].
  apply IH. intros f Hf. apply H. now right.
Qed.

Lemma includes_true_iff (l : list string) (x : string) :
  includes l x = true <-> In x l.
Proof.
  unfold includes. rewrite existsb_exists. split.
  - intros (y & Hy & E). apply String.eqb_eq in E. now subst.
  - intro H. exists x. split; [exact H | apply String.eqb_refl].
Qed.

Lemma get_set_keys {A} (o : list (string * A)) (k f : string) (v w : A) :
  get (set o k v) f = Some w -> f = k \/ get o f = Some w.
Proof.
  destruct (String.eqb_spec k f) as [->|Hne]; [auto|].
  rewrite get_set_other by exact Hne. auto.
Qed.

Lemma fillFilter_keys (filters : list string) (q : list (string * string))
      (acc filt : list (string * filterValue)) (f : string) (w : filterValue) :
  fillFilter filters q acc = Ok filt ->
  get filt f = Some w ->
  In f filters \/ get acc f = Some w.
Proof.
  revert acc. induction filters as [|g rest IH]; intros acc Hfill Hget.
  - injection Hfill as <-. now right.
  - cbn [fillFilter] in Hfill.
    destruct (get q g) as [val|]; [|discriminate].
    destruct (filterValueOf val) as [vg|]; [|discriminate].
    destruct (IH _ Hfill Hget) as [Hin|Hacc]; [left; now right|].
    apply get_set_keys in Hacc. destruct Hacc as [->|Hacc]; [left; now left|].
    now right.
Qed.

(** X8: only the query parameters named like a field of the model reach the
    filter: every key of the filter is such a parameter, and a parameter of
    another name, [_start], [_end], [_sort], [_order] or any other, may be
    added to or taken from the query string, anywhere, without changing the
    filter or whether building it fails. *)
Theorem unknown_parameters_ignored (props : list string)
        (q1 q2 : list (string * string)) (k v : string) :
  includes props k = false ->
  buildFilter props (q1 ++ (k, v) :: q2) = buildFilter props (q1 ++ q2)
  /\ forall filt f w,
      buildFilter props (q1 ++ q2) = Ok filt ->
      get filt f = Some w ->
      In f props /\ In f (Object_keys (q1 ++ q2)).
Proof.
  intro Hk. split.
  - unfold buildFilter, Object_keys.
    rewrite !map_app, !filter_app. cbn [map filter fst]. rewrite Hk.
    apply fillFilter_ext. intros f Hf. apply get_app_skip.
    intros ->. rewrite <- filter_app in Hf. apply filter_In in Hf.
    destruct Hf as [_ Hf]. congruence.
  - intros filt f w Hb Hget. unfold buildFilter in Hb.
    destruct (fillFilter_keys _ _ _ _ _ _ Hb Hget) as [Hin|Hacc];
      [|discriminate Hacc].
    apply filter_In in Hin. destruct Hin as [Hin Hp].
    split; [now apply includes_true_iff | exact Hin].
Qed.

(** *** The List action: a pattern that does not compile *)

Lemma In_keys_get {A} (o : list (string * A)) (k : string) :
  In k (Object_keys o) -> exists v, get o k = Some v.
Proof.
  induction o as [|[k' v'] t IH]; simpl; [intros []|].
  intro H. destruct (String.eqb_spec k' k) as [_|Hne]; [now exists v'|].
  destruct H as [H|H]; [contradiction | now apply IH].
Qed.

Lemma filterValueOf_throws (val : string) (e : error) :
  filterValueOf val = Throw e
  <-> isNaN val = true /\ isBoolWord val = false /\ RegExp_error val = Some e.
Proof.
  destruct (filterValueOf_cases val) as [[Hn Hv]|[(Hn & Hb & Hv)|(Hn & Hb & Hv)]];
    rewrite Hv; unfold new_RegExp.
  - split; [discriminate | intros (H & _); congruence].
  - split; [discriminate | intros (_ & H & _); congruence].
  - destruct (RegExp_error val) as [e0|].
    + split; [intro H; injection H as <-; auto | intros (_ & _ & H); congruence].
    + split; [discriminate | intros (_ & _ & H); discriminate].
Qed.

Lemma fillFilter_throws (filters : list string) (q : list (string * string))
      (acc : list (string * filterValue)) (f val : string) (e : error) :
  (forall g, In g filters -> exists v, get q g = Some v) ->
  In f filters -> get q f = Some val -> filterValueOf val = Throw e ->
  exists e' g val',
    get q g = Some val' /\ filterValueOf val' = Throw e'
    /\ fillFilter filters q acc = Throw e'.
Proof.
  revert acc. induction filters as [|g rest IH]; intros acc Hall Hin Hq Hv;
    [destruct Hin|].
  cbn [fillFilter].
  destruct (Hall g (or_introl eq_refl)) as (vg & Hg). rewrite Hg.
  destruct (filterValueOf vg) as [w|e0] eqn:Ew.
  - destruct Hin as [->|Hin]; [congruence|].
    apply IH; auto. intros g' Hg'. apply Hall. now right.
  - exists e0, g, vg. auto.
Qed.

(** X9: when the value of a parameter named like a model field is neither a
    number nor a boolean word and does not compile as a regular expression,
    the List action forwards the error of such a value as it was thrown (not
    as a 400), without touching request or response and without querying the
    model. *)
Theorem invalid_pattern_forwarded (Res : Resource) (aft : value) (c : ctx)
        (f val : string) (e : error) :
  get (query (req c)) f = Some val ->
  includes (schema_paths Res) f = true ->
  isNaN val = true -> isBoolWord val = false -> RegExp_error val = Some e ->
  exists e' g val',
    get (query (req c)) g = Some val' /\ RegExp_error val' = Some e'
    /\ getAllHandler Res aft c = (c, SNextErr e')
    /\ forall Res', schema_paths Res' = schema_paths Res ->
                    getAllHandler Res' aft c = (c, SNextErr e').
Proof.
  intros Hq Hp Hn Hb He.
  assert (Hv : filterValueOf val = Throw e) by now apply filterValueOf_throws.
  destruct (fillFilter_throws
              (filter (fun param => includes (schema_paths Res) param)
                      (Object_keys (query (req c))))
              (query (req c)) [] f val e) as (e' & g & val' & Hg & Hv' & Hfill);
    auto.
  - intros g Hg. apply filter_In in Hg. now apply In_keys_get.
  - apply filter_In. split; [now apply get_In_keys with (v := val) | exact Hp].
  - exists e', g, val'. apply filterValueOf_throws in Hv'.
    destruct Hv' as (_ & _ & Hv').
    assert (Hb' : buildFilter (schema_paths Res) (query (req c)) = Throw e')
      by exact Hfill.
    repeat split; auto.
    + unfold getAllHandler. now rewrite Hb'.
    + intros Res' Hs. unfold getAllHandler. now rewrite Hs, Hb'.
Qed.

(** *** Middleware entries that are never used *)

Lemma extractMiddleware_drop (pre post : list RouteObject) (d : RouteObject)
      (m p : value) :
  matchesTarget d m p = false
  \/ (exists d0, In d0 pre /\ matchesTarget d0 m p = true) ->
  extractMiddleware (pre ++ d :: post) m p = extractMiddleware (pre ++ post) m p.
Proof.
  intro H. rewrite !extractMiddleware_first, !filter_app. cbn [filter].
  fold (matchesTarget d m p).
  destruct H as [-> | (d0 & Hin & Hm)]; [reflexivity|].
  destruct (filter _ pre) as [|x t] eqn:E; [|reflexivity].
  assert (Hd0 : In d0 (filter (fun r => strict_eq (method r) m
                                        && strict_eq (route r) p) pre)).
  { apply filter_In. auto. }
  rewrite E in Hd0. destruct Hd0.
Qed.

Lemma validateRoutes_app (l1 l2 : list RouteObject) :
  validateRoutes (l1 ++ l2) =
  match validateRoutes l1 with
  | Ok _ => validateRoutes l2
  | Throw e => Throw e
  end.
Proof.
  induction l1 as [|r t IH]; simpl; [reflexivity|].
  destruct (invalidRoute r); [reflexivity | exact IH].
Qed.

Lemma validateRoutes_drop (pre post : list RouteObject) (d : RouteObject) :
  wellFormed d ->
  validateRoutes (pre ++ d :: post) = validateRoutes (pre ++ post).
Proof.
  intro H. apply invalidRoute_false_wellFormed in H.
  rewrite !validateRoutes_app. simpl. now rewrite H.
Qed.

(** The router does not depend on an entry of [before] or [after] that
    changes no resolution [buildRoutes] asks for. *)
Lemma inert_entry (Res : Resource) (args : Args) (pre post : list RouteObject)
      (d : RouteObject) :
  wellFormed d ->
  (forall ex, In ex (orEmpty (extensions args)) ->
     extractMiddleware (pre ++ d :: post) (method ex) (route ex)
     = extractMiddleware (pre ++ post) (method ex) (route ex)) ->
  (forall m p, In (m, p) defaultSlots ->
     extractMiddleware (pre ++ d :: post) (VStr m) (VStr p)
     = extractMiddleware (pre ++ post) (VStr m) (VStr p)) ->
  (orEmpty (before args) = (pre ++ d :: post)%list ->
   run_buildRoutes Res args = run_buildRoutes Res (withBefore args (pre ++ post)))
  /\ (orEmpty (after args) = (pre ++ d :: post)%list ->
      run_buildRoutes Res args = run_buildRoutes Res (withAfter args (pre ++ post))).
Proof.
  intros Hd Hex Hslot.
  assert (Hs : forall m p, In (m, p) defaultSlots ->
                 extractMiddleware (pre ++ d :: post) (VStr m) (VStr p)
                 = extractMiddleware (pre ++ post) (VStr m) (VStr p))
    by exact Hslot.
  pose proof (Hs "get" "/all" ltac:(simpl; tauto)) as H1.
  pose proof (Hs "get" "/single/:id" ltac:(simpl; tauto)) as H2.
  pose proof (Hs "put" "/:id" ltac:(simpl; tauto)) as H3.
  pose proof (Hs "post" "/" ltac:(simpl; tauto)) as H4.
  pose proof (Hs "delete" "/:id" ltac:(simpl; tauto)) as H5.
  split; intro Hsplit; rewrite !run_buildRoutes_cases;
    cbn [withBefore withAfter extensions before after orEmpty];
    rewrite Hsplit, (validateRoutes_drop pre post d Hd);
    destruct (validateRoutes (orEmpty (extensions args))); try reflexivity;
    destruct (validateRoutes (pre ++ post)); try reflexivity;
    try (destruct (validateRoutes (orEmpty (before args))); try reflexivity);
    try (destruct (validateRoutes (orEmpty (after args))); try reflexivity);
    (f_equal; f_equal;
     [ apply map_ext_in; intros ex Hin; unfold extensionRoute;
       now rewrite (Hex ex Hin)
     | unfold defaultRoutes, defaultRoute; now rewrite H1, H2, H3, H4, H5 ]).
Qed.

(** X10: an entry of [before] or of [after] that passes validation but is
    for no extension and for none of the five default slots may be removed
    without changing anything [buildRoutes] does: it is in no chain. *)
Theorem unmatched_entry_is_inert (Res : Resource) (args : Args)
        (pre post : list RouteObject) (d : RouteObject) :
  wellFormed d ->
  (forall ex, In ex (orEmpty (extensions args)) ->
              matchesTarget d (method ex) (route ex) = false) ->
  (forall m p, In (m, p) defaultSlots ->
               matchesTarget d (VStr m) (VStr p) = false) ->
  (orEmpty (before args) = (pre ++ d :: post)%list ->
   run_buildRoutes Res args = run_buildRoutes Res (withBefore args (pre ++ post)))
  /\ (orEmpty (after args) = (pre ++ d :: post)%list ->
      run_buildRoutes Res args = run_buildRoutes Res (withAfter args (pre ++ post))).
Proof.
  intros Hd Hex Hslot. apply inert_entry; [exact Hd | |].
  - intros ex Hin. apply extractMiddleware_drop. left. now apply Hex.
  - intros m p Hin. apply extractMiddleware_drop. left. now apply Hslot.
Qed.

(** X11: of several entries of [before] (or of [after]) with the same method
    and route only the first counts: a later one that passes validation may be
    removed without changing anything [buildRoutes] does. *)
Theorem shadowed_entry_is_inert (Res : Resource) (args : Args)
        (pre post : list RouteObject) (d d0 : RouteObject) :
  wellFormed d ->
  In d0 pre -> method d0 = method d -> route d0 = route d ->
  (orEmpty (before args) = (pre ++ d :: post)%list ->
   run_buildRoutes Res args = run_buildRoutes Res (withBefore args (pre ++ post)))
  /\ (orEmpty (after args) = (pre ++ d :: post)%list ->
      run_buildRoutes Res args = run_buildRoutes Res (withAfter args (pre ++ post))).
Proof.
  intros Hd Hin Hm Hr.
  assert (H : forall m p,
             extractMiddleware (pre ++ d :: post) m p
             = extractMiddleware (pre ++ post) m p).
  { intros m p. apply extractMiddleware_drop.
    destruct (matchesTarget d m p) eqn:E; [right | now left].
    exists d0. split; [exact Hin|]. unfold matchesTarget in *.
    now rewrite Hm, Hr. }
  apply inert_entry; [exact Hd | |]; intros; apply H.
Qed.

(** X12: a route given as a [String] object passes validation, yet it is
    strictly equal to no primitive string: entries of [before] or [after]
    with such routes are resolved for no default slot, which get the
    pass-through handler as if the list were empty. *)
Theorem string_object_route_never_resolves (Res : Resource)
        (bef aft : list RouteObject) :
  (forall r, In r bef -> instanceof_String (route r) = true) ->
  (forall m p, extractMiddleware bef m (VStr p) = emptyMiddleware)
  /\ defaultRoutes Res bef aft = defaultRoutes Res [] aft
  /\ (forall r, In r bef ->
        (exists m, In m allowedMethods /\ method r = VStr m) ->
        callable (function r) = true -> wellFormed r).
Proof.
  intro H.
  assert (Hx : forall m p, extractMiddleware bef m (VStr p) = emptyMiddleware).
  { intros m p. rewrite extractMiddleware_first, filter_none; [reflexivity|].
    intros x Hx. specialize (H x Hx).
    destruct (route x); try discriminate H. cbn [strict_eq]. apply andb_false_r. }
  split; [exact Hx | split].
  - unfold defaultRoutes, defaultRoute. now rewrite !Hx.
  - intros r Hr Hm Hc. specialize (H r Hr). repeat split; auto.
    now destruct (route r).
Qed.

(** ** Properties of the handler factories *)

Lemma factory_outcomes (isv : string -> bool) (a : action) (M : Model)
      (args : option FactoryArgs) (dont : option value) (c : ctx) :
  let c1 := fst (applyModifier M args c) in
  (exists e, factory isv a M args dont c = (c1, SNextErr e))
  \/ (exists d c0,
         req c0 = req c1 /\ sent (res c0) = sent (res c1)
         /\ factory isv a M args dont c = sendCrbResult (orFalse dont) d c0).
Proof.
  cbv zeta.
  destruct a; cbn [factory];
    unfold getAll_factory, getSingle_factory, update_factory, create_factory,
           remove_factory;
    destruct (applyModifier M args c) as [c1 [R|e]]; cbn [fst];
    try (left; eexists; reflexivity).
  - destruct (buildFilterId isv (model_paths R) (query (req c1))) as [filt|e];
      [|left; eexists; reflexivity].
    destruct (model_find_exec R filt (sortOf (query (req c1)))) as [l|e|e];
      try (left; eexists; reflexivity).
    right. eexists. eexists. split; [|split; [|reflexivity]]; reflexivity.
  - destruct (model_findOne_exec R (get (params (req c1)) "id")) as [d|e|e];
      try (left; eexists; reflexivity).
    right. exists d, c1. auto.
  - destruct (model_findByIdAndUpdate R (get (params (req c1)) "id")
                                      (body (req c1))) as [d|e|e];
      try (left; eexists; reflexivity).
    right. exists d, c1. auto.
  - destruct (model_save R (body (req c1))) as [d|e|e];
      try (left; eexists; reflexivity).
    right. exists d, c1. auto.
  - destruct (model_find_remove_exec R (get (params (req c1)) "id")) as [d|e|e];
      try (left; eexists; reflexivity).
    right. exists d, c1. auto.
Qed.

(** X13: a handler made by one of the five factories always ends in one of
    three ways, counted from the context the [resourceModifier] left: it
    forwards an error and has changed nothing; or it invokes the continuation
    with [crbResult] set and nothing sent; or it has sent exactly one body.
    Unlike the Delete action of [buildRoutes] it never stops without an
    answer. A throwing [resourceModifier] and a rejected data call, the List
    query and the removal included, are forwarded as they are, with no status
    put on them. *)
Theorem factory_never_silent (isv : string -> bool) (a : action) (M : Model)
        (args : option FactoryArgs) (dont : option value) (c : ctx) :
  let c1 := fst (applyModifier M args c) in
  let out := factory isv a M args dont c in
  (forall e, snd (applyModifier M args c) = Throw e -> out = (c1, SNextErr e))
  /\ (forall R e, snd (applyModifier M args c) = Ok R ->
                  dataCall a R c1 = Some (Rejected e) -> out = (c1, SNextErr e))
  /\ (forall R filt e,
         a = getAll ->
         snd (applyModifier M args c) = Ok R ->
         buildFilterId isv (model_paths R) (query (req c1)) = Ok filt ->
         model_find_exec R filt (sortOf (query (req c1))) = Rejected e ->
         out = (c1, SNextErr e))
  /\ (forall e, snd out = SNextErr e -> fst out = c1)
  /\ (snd out = SNext ->
      sent (res (fst out)) = sent (res c1) /\ crbResult (req (fst out)) <> None)
  /\ (snd out = SEnd ->
      exists d, sent (res (fst out)) = (sent (res c1) ++ [d])%list
                /\ req (fst out) = req c1).
Proof.
  cbv zeta. split; [|split; [|split]].
  - intros e He.
    destruct a; cbn [factory];
      unfold getAll_factory, getSingle_factory, update_factory, create_factory,
             remove_factory;
      destruct (applyModifier M args c) as [c1 r]; cbn [fst snd] in *;
      subst r; reflexivity.
  - intros R e HR Hd.
    destruct a; cbn [factory dataCall] in *; try discriminate Hd;
      injection Hd as Hd;
      unfold getSingle_factory, update_factory, create_factory, remove_factory;
      destruct (applyModifier M args c) as [c1 r]; cbn [fst snd] in *;
      subst r; now rewrite Hd.
  - intros R filt e -> HR Hf Hd. cbn [factory]. unfold getAll_factory.
    destruct (applyModifier M args c) as [c1 r]; cbn [fst snd] in *.
    subst r. now rewrite Hf, Hd.
  - destruct (factory_outcomes isv a M args dont c)
      as [(e & ->) | (d & c0 & Hreq & Hsent & ->)]; cbn [fst snd].
    + repeat split; try discriminate; auto.
    + unfold sendCrbResult.
      destruct (negb (truthy (orFalse dont))
                || strict_eq (orFalse dont) emptyMiddleware);
        cbn [fst snd res_send set_crbResult req res sent crbResult];
        rewrite ?Hreq, ?Hsent.
      * repeat split; try discriminate; auto.
        intros _. exists d. auto.
      * repeat split; try discriminate; auto.
Qed.

(** X14: the handler acts on the model the [resourceModifier] returns, in
    the context the modifier left, exactly as the handler made without a
    modifier for that model would; and when the modifier throws, the error is
    forwarded and no data call is made. *)
Theorem modifier_scopes_the_model (isv : string -> bool) (a : action)
        (M : Model) (args : FactoryArgs) (f : modifier)
        (dont : option value) (c c1 : ctx) :
  resourceModifier args = Some f ->
  (forall R, f M c = (c1, Ok R) ->
             factory isv a M (Some args) dont c = factory isv a R None dont c1)
  /\ (forall e, f M c = (c1, Throw e) ->
                factory isv a M (Some args) dont c = (c1, SNextErr e)).
Proof.
  intro Hf. split; intros x Hx;
    destruct a; cbn [factory];
    unfold getAll_factory, getSingle_factory, update_factory, create_factory,
           remove_factory, applyModifier;
    rewrite Hf, Hx; reflexivity.
Qed.

(** *** The filter of the factory version *)

Lemma filterValueOfId_cases (isv : string -> bool) (val : string) :
  (isNaN val = false
   /\ filterValueOfId isv val = Ok (QPlain (FNumber (Number val))))
  \/ (isNaN val = true /\ isBoolWord val = true
      /\ filterValueOfId isv val
         = Ok (QPlain (FBool (String.eqb (toLowerCase val) "true"))))
  \/ (isNaN val = true /\ isBoolWord val = false /\ isv val = true
      /\ filterValueOfId isv val = Ok (QObjectId val))
  \/ (isNaN val = true /\ isBoolWord val = false /\ isv val = false
      /\ filterValueOfId isv val
         = match new_RegExp val "i" with
           | Ok v => Ok (QPlain v)
           | Throw e => Throw e
           end).
Proof.
  unfold filterValueOfId, isBoolWord, indexOf. cbn [indexOf_from strict_eq].
  destruct (isNaN val); cbn [negb]; [|left; auto].
  right.
  rewrite (String.eqb_sym "true"), (String.eqb_sym "false").
  destruct (String.eqb (toLowerCase val) "true"); cbn [orb].
  - left. auto.
  - destruct (String.eqb (toLowerCase val) "false"); cbn [orb negb Z.eqb].
    + left. auto.
    + right. destruct (isv val); [left | right]; auto.
Qed.

(** X15: in the factory version a query value is entered as a number when
    [isNaN] is false and as a boolean when it is "true" or "false" up to case,
    whether or not it is also a valid identifier; only then a valid identifier
    is entered verbatim, and is never compiled as a pattern, so that it cannot
    fail; every other value is treated as [buildRoutes] treats it. The four
    cases exclude each other and cover every string. *)
Theorem identifier_comes_third (isv : string -> bool) (val : string) :
  (isNaN val = false ->
   filterValueOfId isv val = Ok (QPlain (FNumber (Number val))))
  /\ (isBoolWord val = true ->
      filterValueOfId isv val
      = Ok (QPlain (FBool (String.eqb (toLowerCase val) "true"))))
  /\ (isNaN val = true -> isBoolWord val = false -> isv val = true ->
      filterValueOfId isv val = Ok (QObjectId val))
  /\ (isv val = false ->
      filterValueOfId isv val
      = match filterValueOf val with
        | Ok v => Ok (QPlain v)
        | Throw e => Throw e
        end).
Proof.
  destruct (filterValueOfId_cases isv val)
    as [(Hn & Hv)|[(Hn & Hb & Hv)|[(Hn & Hb & Hi & Hv)|(Hn & Hb & Hi & Hv)]]];
    destruct (filterValueOf_cases val)
      as [(Hn' & Hv')|[(Hn' & Hb' & Hv')|(Hn' & Hb' & Hv')]];
    try congruence;
    rewrite Hv, Hv'; repeat split; intros; try congruence;
    match goal with
    | H : isBoolWord val = true |- _ =>
        apply isBoolWord_not_number in H; congruence
    | _ => idtac
    end.
Qed.

Lemma map_plain_set (acc : list (string * filterValue)) (f : string)
      (v : filterValue) :
  map plain (set acc f v) = set (map plain acc) f (QPlain v).
Proof.
  induction acc as [|[k w] t IH]; [reflexivity|].
  cbn [set map plain fst snd].
  destruct (String.eqb k f); cbn [map plain fst snd]; [reflexivity|].
  now rewrite IH.
Qed.

Lemma get_In {A} (o : list (string * A)) (k : string) (v : A) :
  get o k = Some v -> In (k, v) o.
Proof.
  induction o as [|[k' v'] t IH]; simpl; [discriminate|].
  destruct (String.eqb_spec k' k) as [->|_].
  - intro H. injection H as ->. now left.
  - intro H. right. now apply IH.
Qed.

Lemma fillFilterId_plain (isv : string -> bool) (filters : list string)
      (q : list (string * string)) (acc : list (string * filterValue)) :
  (forall k v, In (k, v) q -> isv v = false) ->
  fillFilterId isv filters q (map plain acc)
  = match fillFilter filters q acc with
    | Ok filt => Ok (map plain filt)
    | Throw e => Throw e
    end.
Proof.
  intro H. revert acc. induction filters as [|g rest IH]; intro acc;
    [reflexivity|].
  cbn [fillFilterId fillFilter].
  destruct (get q g) as [val|] eqn:Hg; [|reflexivity].
  destruct (identifier_comes_third isv val) as (_ & _ & _ & Hv).
  rewrite (Hv (H g val (get_In _ _ _ Hg))).
  destruct (filterValueOf val) as [v|e]; [|reflexivity].
  rewrite <- map_plain_set. apply IH.
Qed.

Lemma buildFilterId_plain (isv : string -> bool) (props : list string)
      (q : list (string * string)) :
  (forall k v, In (k, v) q -> isv v = false) ->
  buildFilterId isv props q
  = match buildFilter props q with
    | Ok filt => Ok (map plain filt)
    | Throw e => Throw e
    end.
Proof.
  intro H. unfold buildFilterId, buildFilter.
  now apply (fillFilterId_plain isv _ q []).
Qed.

(** X16: on a request none of whose query values is a valid identifier, and
    with no [resourceModifier], a handler made by a factory with the slot's
    after-handler does what the action of [buildRoutes] does on the same
    model, whenever it forwards no error; and whenever the action of
    [buildRoutes] forwards an error, the factory's handler forwards one with
    the same message from the same context. *)
Theorem factory_agrees_with_action (isv : string -> bool) (a : action)
        (M : Model) (aft : value) (c : ctx) :
  (forall k v, In (k, v) (query (req c)) -> isv v = false) ->
  (forall c' s,
      factory isv a M None (Some aft) c = (c', s) ->
      (forall e, s <> SNextErr e) ->
      run_stage (SAction a (asResource M) aft) c = (c', s))
  /\ (forall c' e',
         run_stage (SAction a (asResource M) aft) c = (c', SNextErr e') ->
         exists e, factory isv a M None (Some aft) c = (c', SNextErr e)
                   /\ message e = message e').
Proof.
  intro Hq.
  destruct a; cbn [factory run_stage];
    unfold getAll_factory, getSingle_factory, update_factory, create_factory,
           remove_factory, getAllHandler, getSingleHandler, putHandler,
           postHandler, deleteHandler, applyModifier;
    cbn [orFalse asResource schema_paths find_exec findOne_exec
         findByIdAndUpdate save find_remove_exec].
  - rewrite (buildFilterId_plain isv _ _ Hq).
    destruct (buildFilter (model_paths M) (query (req c))) as [filt|e0];
      [|agree_case].
    destruct (model_find_exec M (map plain filt) (sortOf (query (req c))))
      as [l|e0|e0]; agree_case.
  - destruct (model_findOne_exec M (get (params (req c)) "id")) as [d|e0|e0];
      agree_case.
  - destruct (model_findByIdAndUpdate M (get (params (req c)) "id")
                                      (body (req c))) as [d|e0|e0];
      agree_case.
  - destruct (model_save M (body (req c))) as [d|e0|e0]; agree_case.
  - destruct (model_find_remove_exec M (get (params (req c)) "id")) as [d|e0|e0];
      agree_case.
Qed.

(** ** Requests through the built router *)

(** Where the five default registrations send a request, by what the
    framework's matcher says of their patterns. *)
Lemma dispatch_defaults (rm : matcher) (Res : Resource)
      (bef aft : list RouteObject) (path : string)
      (ps : list (string * string)) (c : ctx) :
  let run a m p :=
    runChain (rhandlers (defaultRoute Res bef aft a m p)) (set_params ps c) in
  (rm "/all" path = Some ps -> rm "/single/:id" path = None ->
   dispatch rm (defaultRoutes Res bef aft) "get" path c = run getAll "get" "/all")
  /\ (rm "/all" path = None -> rm "/single/:id" path = Some ps ->
      dispatch rm (defaultRoutes Res bef aft) "get" path c
      = run getSingle "get" "/single/:id")
  /\ (rm "/:id" path = Some ps ->
      dispatch rm (defaultRoutes Res bef aft) "put" path c = run put "put" "/:id")
  /\ (rm "/" path = Some ps ->
      dispatch rm (defaultRoutes Res bef aft) "post" path c = run post "post" "/")
  /\ (rm "/:id" path = Some ps ->
      dispatch rm (defaultRoutes Res bef aft) "delete" path c
      = run delete "delete" "/:id").
Proof.
  intro run. unfold run, defaultRoutes.
  repeat split; intros;
    cbn [dispatch matchRoute defaultRoute rmethod rpath strict_eq String.eqb
         Ascii.eqb Bool.eqb string_of_value];
    repeat match goal with H : rm _ _ = _ |- _ => rewrite H; clear H end;
    match goal with
    | |- context [runChain ?hs ?c0] =>
        destruct (runChain hs c0) as [c' [| |]]; reflexivity
    end.
Qed.

(** X17: in a router built without extensions a request goes to the chain
    of the default slot of its method whose pattern the framework's matcher
    lets take its path, with the route parameters the matcher yields, and the
    outcome of that chain is the outcome of the request: PUT, POST and DELETE
    have one slot each; a GET goes to the List chain when only /all takes the
    path, and to the Get-one chain when only /single/:id does. *)
Theorem default_slots_routing (rm : matcher) (Res : Resource) (args : Args)
        (path : string) (ps : list (string * string)) (c : ctx) :
  orEmpty (extensions args) = [] ->
  validateRoutes (orEmpty (before args)) = Ok tt ->
  validateRoutes (orEmpty (after args)) = Ok tt ->
  let r := fst (run_buildRoutes Res args) in
  let bef := orEmpty (before args) in
  let aft := orEmpty (after args) in
  let run a m p :=
    runChain (rhandlers (defaultRoute Res bef aft a m p)) (set_params ps c) in
  (rm "/all" path = Some ps -> rm "/single/:id" path = None ->
   dispatch rm r "get" path c = run getAll "get" "/all")
  /\ (rm "/all" path = None -> rm "/single/:id" path = Some ps ->
      dispatch rm r "get" path c = run getSingle "get" "/single/:id")
  /\ (rm "/:id" path = Some ps ->
      dispatch rm r "put" path c = run put "put" "/:id")
  /\ (rm "/" path = Some ps ->
      dispatch rm r "post" path c = run post "post" "/")
  /\ (rm "/:id" path = Some ps ->
      dispatch rm r "delete" path c = run delete "delete" "/:id").
Proof.
  intros He Hb Ha. cbv zeta.
  rewrite run_buildRoutes_cases, He, Hb, Ha. cbn [validateRoutes map app fst].
  apply (dispatch_defaults rm Res _ _ path ps c).
Qed.

(** X18: an extension for (get, /all) does not take the place of the List
    action, it only comes first. Whatever the framework's matcher, as long as
    /all takes the path /all and /single/:id does not: when the extension's
    chain passes the request on, and the framework hands GET /all to no other
    extension, the built-in List chain runs next, on the context the extension
    left, and its outcome is the outcome of the request. *)
Theorem extension_falls_through (rm : matcher) (Res : Resource) (args : Args)
        (pre post : list RouteObject) (ex : RouteObject)
        (ps : list (string * string)) (c c' : ctx) :
  validateRoutes (orEmpty (extensions args)) = Ok tt ->
  validateRoutes (orEmpty (before args)) = Ok tt ->
  validateRoutes (orEmpty (after args)) = Ok tt ->
  let bef := orEmpty (before args) in
  let aft := orEmpty (after args) in
  rm "/all" "/all" = Some ps ->
  rm "/single/:id" "/all" = None ->
  orEmpty (extensions args) = (pre ++ ex :: post)%list ->
  isFor "get" "/all" ex ->
  (forall x, In x (pre ++ post) ->
             matchRoute rm (extensionRoute bef aft x) "get" "/all" = None) ->
  runChain (rhandlers (extensionRoute bef aft ex)) (set_params ps c)
    = (c', SNext) ->
  dispatch rm (fst (run_buildRoutes Res args)) "get" "/all" c
  = runChain (rhandlers (defaultRoute Res bef aft getAll "get" "/all"))
             (set_params ps c').
Proof.
  intros E1 E2 E3 bef aft Hall Hsingle Hsplit Hex Hmiss Hchain.
  rewrite run_buildRoutes_cases, E1, E2, E3. cbn [fst].
  fold bef aft. rewrite Hsplit, map_app, <- app_assoc. cbn [map app].
  rewrite dispatch_app_miss.
  2:{ intros reg Hreg. apply in_map_iff in Hreg.
      destruct Hreg as (x & <- & Hx). apply Hmiss, in_or_app. now left. }
  cbn [dispatch]. rewrite (matchRoute_isFor_all rm bef aft ex Hex), Hall, Hchain.
  rewrite dispatch_app_miss.
  2:{ intros reg Hreg. apply in_map_iff in Hreg.
      destruct Hreg as (x & <- & Hx). apply Hmiss, in_or_app. now right. }
  now apply (dispatch_defaults rm Res bef aft "/all" ps c').
Qed.

(** X19: a factory called without [dontSendResult], or with a falsy one, or
    with the pass-through handler, makes a handler that sends the result
    itself: when the data call resolves, the result is the one body sent (for
    the List action after X-Total-Count is set), the continuation is not
    invoked and [crbResult] is left alone. *)
Theorem factory_default_sends (isv : string -> bool) (a : action) (M : Model)
        (args : option FactoryArgs) (v : value) (c : ctx) :
  truthy v = false \/ v = emptyMiddleware ->
  let c1 := fst (applyModifier M args c) in
  factory isv a M args (Some v) c = factory isv a M args None c
  /\ snd (factory isv a M args (Some v) c) <> SNext
  /\ (forall R d,
         snd (applyModifier M args c) = Ok R ->
         dataCall a R c1 = Some (Resolved d) ->
         factory isv a M args (Some v) c = (res_send d c1, SEnd))
  /\ (forall R filt l,
         a = getAll ->
         snd (applyModifier M args c) = Ok R ->
         buildFilterId isv (model_paths R) (query (req c1)) = Ok filt ->
         model_find_exec R filt (sortOf (query (req c1))) = Resolved l ->
         factory isv a M args (Some v) c
         = (res_send (DArray (slice (query (req c1)) l))
                     (res_header "X-Total-Count" (List.length l) c1), SEnd)).
Proof.
  intro Hv. cbv zeta.
  assert (Hs : forall d c0,
             sendCrbResult (orFalse (Some v)) d c0 = (res_send d c0, SEnd)).
  { intros d c0. unfold sendCrbResult. cbn [orFalse].
    destruct Hv as [-> | ->]; reflexivity. }
  split; [|split; [|split]].
  - destruct a; cbn [factory];
      unfold getAll_factory, getSingle_factory, update_factory, create_factory,
             remove_factory;
      destruct (applyModifier M args c) as [c1 [R|e]]; try reflexivity;
      repeat match goal with
             | |- context [match ?x with _ => _ end] =>
                 match x with
                 | buildFilterId _ _ _ => destruct x
                 | model_find_exec _ _ _ => destruct x
                 | model_findOne_exec _ _ => destruct x
                 | model_findByIdAndUpdate _ _ _ => destruct x
                 | model_save _ _ => destruct x
                 | model_find_remove_exec _ _ => destruct x
                 end
             end;
      rewrite ?Hs; reflexivity.
  - destruct (factory_outcomes isv a M args (Some v) c)
      as [(e & ->) | (d & c0 & _ & _ & ->)]; [discriminate|].
    rewrite Hs. discriminate.
  - intros R d HR Hd.
    destruct a; cbn [factory dataCall] in *; try discriminate Hd;
      injection Hd as Hd;
      unfold getSingle_factory, update_factory, create_factory, remove_factory;
      destruct (applyModifier M args c) as [c1 r]; cbn [fst snd] in *;
      subst r; now rewrite Hd, Hs.
  - intros R filt l -> HR Hf Hd. cbn [factory]. unfold getAll_factory.
    destruct (applyModifier M args c) as [c1 r]; cbn [fst snd] in *.
    subst r. now rewrite Hf, Hd, Hs.
Qed.

End Handlers.

(** ** The properties at sample inputs *)

(** C2: a rejected removal is not surfaced. With a model whose removal
    rejects with message CastError, the Delete action sends nothing and
    forwards no error, alone and as the router runs it for DELETE /42
    (whatever the framework's matcher, as long as /:id takes /42 with 42 as
    [id]), where the specification has the error 400 "CastError" forwarded;
    the Get-one action on a model that rejects the same way does forward
    it. *)
Theorem delete_rejection_not_surfaced :
  let c := sampleRequest [] in
  let R := sampleResource in
  let R' := {| schema_paths := schema_paths R; find_exec := find_exec R;
               findOne_exec := find_remove_exec R;
               findByIdAndUpdate := findByIdAndUpdate R; save := save R;
               find_remove_exec := find_remove_exec R |} in
  find_remove_exec R (get (params (req c)) "id")
    = Rejected {| status := None; message := "CastError" |}
  /\ deleteHandler R emptyMiddleware c = (c, SEnd)
  /\ deleteHandler R emptyMiddleware c <> (c, SNextErr (Err 400 "CastError"))
  /\ (forall rm : matcher,
         rm "/:id" "/42" = Some [("id", "42")] ->
         dispatch noRegExpError rm (fst (run_buildRoutes R noArgs))
                  "delete" "/42" c
         = (c, SEnd))
  /\ getSingleHandler R' emptyMiddleware c = (c, SNextErr (Err 400 "CastError")).
Proof.
  cbv zeta. repeat split; try reflexivity; try discriminate.
  intros rm Hrm.
  cbn [run_buildRoutes fst]. unfold run_buildRoutes. cbn.
  rewrite Hrm. reflexivity.
Qed.

(** C2 with the matcher of the examples. *)
Lemma delete_rejection_not_surfaced_witness :
  dispatch noRegExpError sampleMatcher
           (fst (run_buildRoutes sampleResource noArgs)) "delete" "/42"
           (sampleRequest [])
  = (sampleRequest [], SEnd).
Proof.
  exact (proj1 (proj2 (proj2 (proj2 delete_rejection_not_surfaced)))
           sampleMatcher eq_refl).
Defined.

(** C3 at [_start=1&_end=3] over five records: the second to the fourth are
    sent, and X-Total-Count is 5. *)
Lemma getAll_slice_witness :
  let c := sampleRequest [("_start", "1"); ("_end", "3")] in
  getAllHandler noRegExpError sampleResource emptyMiddleware c
  = sendCrbResult emptyMiddleware
      (DArray [[("name", "b")]; [("name", "c")]; [("name", "d")]])
      (res_header "X-Total-Count" 5 c).
Proof.
  pose proof (getAll_slice noRegExpError sampleResource emptyMiddleware
                (sampleRequest [("_start", "1"); ("_end", "3")]) [] sampleDocs
                eq_refl eq_refl) as H.
  cbv zeta in H. destruct H as [H _].
  destruct (H "1" "3" 1%nat 3%nat eq_refl eq_refl eq_refl eq_refl) as [H1 _].
  - apply le_S, le_S, le_n.
  - exact H1.
Defined.

(** C9 at [_start=abc&_end=3] over five records: nothing is sent in the
    body, and X-Total-Count is 5. *)
Lemma getAll_nonnumeric_bounds_witness :
  let c := sampleRequest [("_start", "abc"); ("_end", "3")] in
  getAllHandler noRegExpError sampleResource emptyMiddleware c
  = sendCrbResult emptyMiddleware (DArray []) (res_header "X-Total-Count" 5 c).
Proof.
  exact (proj1 (proj2
    (getAll_nonnumeric_bounds noRegExpError sampleResource emptyMiddleware
       (sampleRequest [("_start", "abc"); ("_end", "3")]) [] sampleDocs
       "abc" "3" eq_refl eq_refl eq_refl eq_refl (or_introl eq_refl)))).
Defined.

(** C8 at [_sort=name&_order=asc]: no sort. *)
Lemma sort_only_ASC_DESC_witness :
  sortOf [("_sort", "name"); ("_order", "asc")] = None.
Proof.
  pose proof (sort_only_ASC_DESC noRegExpError sampleResource emptyMiddleware
                (sampleRequest [("_sort", "name"); ("_order", "asc")])) as H.
  cbv zeta in H. destruct H as [_ H].
  destruct (H "asc" eq_refl) as [H1 _].
  - discriminate.
  - discriminate.
  - exact H1.
Defined.

(** C4, as the specification words it, fails at "Infinity" and at "0x1F":
    neither is purely numeric nor a boolean word, which would make them
    substring patterns, but the code enters the numbers Infinity and 31. *)
Lemma numeral_words_are_numbers :
  purelyNumeric "Infinity" = false /\ isBoolWord "Infinity" = false
  /\ filterValueOf noRegExpError "Infinity" = Ok (FNumber PInf)
  /\ filterValueOf noRegExpError "Infinity" <> Ok (FRegExp "Infinity" "i")
  /\ purelyNumeric "0x1F" = false /\ isBoolWord "0x1F" = false
  /\ filterValueOf noRegExpError "0x1F" = Ok (FNumber (Fin (31 # 1)))
  /\ filterValueOf noRegExpError "0x1F" <> Ok (FRegExp "0x1F" "i").
Proof.
  repeat split; try reflexivity; discriminate.
Qed.

(** C4 as amended, at [color=red&name=12] with both fields known. *)
Lemma query_value_three_way_witness :
  exists v, filterValueOf noRegExpError "12" = Ok v
            /\ get [("color", FRegExp "red" "i"); ("name", FNumber (Fin (12 # 1)))]
                   "name" = Some v.
Proof.
  exact (proj2 (proj2 (proj2 (query_value_three_way noRegExpError "12"
                                eq_refl)))
           ["name"; "color"] [("color", "red"); ("name", "12")]
           [("color", FRegExp "red" "i"); ("name", FNumber (Fin (12 # 1)))]
           "name" eq_refl eq_refl eq_refl).
Defined.

Lemma patchRoute_malformed : malformed patchRoute.
Proof.
  left. intros m Hm. simpl in Hm.
  destruct Hm as [<-|[<-|[<-|[<-|[]]]]]; discriminate.
Defined.

(** C5 at extensions [custom; patch; all]: nothing is registered. *)
Lemma validateRoutes_fail_fast_witness :
  validateRoutes [customRoute; patchRoute; allRoute] = Throw "Invalid Route object"
  /\ run_buildRoutes sampleResource
       {| extensions := Some [customRoute; patchRoute; allRoute];
          before := None; after := None |}
     = ([], Throw "Invalid Route object").
Proof.
  destruct (validateRoutes_fail_fast sampleResource
              {| extensions := Some [customRoute; patchRoute; allRoute];
                 before := None; after := None |}
              [customRoute; patchRoute; allRoute]
              (Exists_cons_tl _ (Exists_cons_hd _ _ _ patchRoute_malformed)))
    as (_ & H1 & H2).
  split; [exact H1 | apply H2; left; reflexivity].
Defined.

(** C10 at a before list holding only a stray malformed entry. *)
Lemma malformed_middleware_aborts_witness :
  run_buildRoutes sampleResource
    {| extensions := Some [customRoute]; before := Some [strayRoute];
       after := None |}
  = ([], Throw "Invalid Route object").
Proof.
  apply (malformed_middleware_aborts sampleResource
           {| extensions := Some [customRoute]; before := Some [strayRoute];
              after := None |} strayRoute).
  - left. left. reflexivity.
  - right. right. reflexivity.
Defined.

(** C6 at a before list with two entries for (get, /all): the first wins. *)
Lemma extractMiddleware_first_match_witness :
  extractMiddleware
    [customRoute; allRoute; Route (VStr "get") (VStr "/all") sendCarried]
    (VStr "get") (VStr "/all") = sampleHandler.
Proof.
  apply (proj1 (extractMiddleware_first_match noRegExpError
                  [customRoute; allRoute;
                   Route (VStr "get") (VStr "/all") sendCarried] "get" "/all")
               [customRoute] allRoute
               [Route (VStr "get") (VStr "/all") sendCarried] eq_refl).
  - split; reflexivity.
  - intros x [<-|[]] [H _]. discriminate H.
Defined.

(** C7, as the specification words it, fails when the extension passes
    the request on: with one extension for (get, /all) that marks the response
    and calls [next()], the router reaches the extension first, and then the
    built-in List action runs all the same and sends the records. *)
Lemma extension_does_not_replace_list :
  let args := {| extensions := Some [passingRoute]; before := None;
                 after := None |} in
  let r := fst (run_buildRoutes sampleResource args) in
  validateRoutes [passingRoute] = Ok tt
  /\ firstMatch sampleMatcher r "get" "/all"
     = Some (extensionRoute [] [] passingRoute)
  /\ dispatch noRegExpError sampleMatcher r "get" "/all" (sampleRequest [])
     = (res_send (DArray sampleDocs)
          (res_header "X-Total-Count" 5
             (res_header "X-Seen" 1 (set_params [] (sampleRequest [])))),
        SEnd).
Proof.
  cbv zeta. repeat split.
Qed.

(** C7 with extensions [custom; all] and an after-handler for (get, /all):
    GET /all goes to the extension's chain. *)
Lemma extensions_registered_first_witness :
  firstMatch sampleMatcher
    (fst (run_buildRoutes sampleResource
            {| extensions := Some [customRoute; allRoute]; before := None;
               after := Some [Route (VStr "get") (VStr "/all") sendCarried] |}))
    "get" "/all"
  = Some (mkRegistration (VStr "get") (VStr "/all")
            [SValue emptyMiddleware; SValue sampleHandler; SValue sendCarried]).
Proof.
  pose proof (extensions_registered_first noRegExpError sampleResource
                {| extensions := Some [customRoute; allRoute]; before := None;
                   after := Some [Route (VStr "get") (VStr "/all") sendCarried] |}
                eq_refl eq_refl eq_refl) as H.
  cbv zeta in H. destruct H as [_ H].
  destruct (H sampleMatcher [] eq_refl) as [_ H'].
  destruct (H' [customRoute] allRoute [] eq_refl (conj eq_refl eq_refl))
    as [H1 _].
  - intros x [<-|[]]. reflexivity.
  - exact H1.
Defined.

(** ** The further properties at sample inputs *)

Lemma registered_stages_callable_witness :
  List.length (fst (run_buildRoutes sampleResource
                      {| extensions := Some [customRoute; allRoute];
                         before := None; after := Some [shadowedRoute] |}))
  = 7%nat.
Proof.
  exact (proj1 (registered_stages_callable sampleResource
                  {| extensions := Some [customRoute; allRoute];
                     before := None; after := Some [shadowedRoute] |}
                  _ eq_refl)).
Defined.

(** X3 at the Get-one action of the sample resource, with the answering
    after-handler: the null result is what that handler sends. *)
Lemma deferred_handoff_witness :
  runChain noRegExpError
    (defaultChain getSingle sampleResource emptyMiddleware sendCarried)
    (sampleRequest [])
  = (res_send DNull (set_crbResult DNull (sampleRequest [])), SEnd).
Proof.
  exact (proj1 (proj2 (deferred_handoff noRegExpError sampleResource 1 _
                         (sampleRequest []))) DNull eq_refl).
Defined.

(** X4 at the Create action of the sample resource without after-handler:
    it ends without calling [next], so one body has been sent. *)
Lemma action_effects_witness :
  (exists d,
      sent (res (fst (run_stage noRegExpError
                        (SAction post sampleResource emptyMiddleware)
                        (sampleRequest []))))
      = ([] ++ [d])%list
      /\ req (fst (run_stage noRegExpError
                     (SAction post sampleResource emptyMiddleware)
                     (sampleRequest [])))
         = req (sampleRequest []))
  \/ (post = delete
      /\ fst (run_stage noRegExpError
                (SAction post sampleResource emptyMiddleware) (sampleRequest []))
         = sampleRequest []).
Proof.
  exact (proj1 (proj2 (proj2
           (action_effects noRegExpError post sampleResource emptyMiddleware
              (sampleRequest [])))) eq_refl).
Defined.

(** X6 at [_start=-3&_end=2] and at [_start=4&_end=1] over five records. *)
Lemma slice_integer_bounds_witness :
  slice [("_start", "-3"); ("_end", "2")] sampleDocs
  = [[("name", "a")]; [("name", "b")]; [("name", "c")]]
  /\ slice [("_start", "4"); ("_end", "1")] sampleDocs = [].
Proof.
  split.
  - exact (proj2 (proj2
             (slice_integer_bounds [("_start", "-3"); ("_end", "2")] sampleDocs
                "-3" "2" (-3) 2 eq_refl eq_refl eq_refl eq_refl))
             ltac:(discriminate)).
  - exact (proj1 (proj2
             (slice_integer_bounds [("_start", "4"); ("_end", "1")] sampleDocs
                "4" "1" 4 1 eq_refl eq_refl eq_refl eq_refl))
             (or_introl eq_refl)).
Defined.

(** X7 at [_sort=name&_order=DESC]. *)
Lemma sort_applied_witness :
  sortOf [("_sort", "name"); ("_order", "DESC")] = Some ("name", -1).
Proof.
  exact (proj1 (proj1
           (sort_applied noRegExpError sampleResource emptyMiddleware
              (sampleRequest [("_sort", "name"); ("_order", "DESC")]) "name")
           eq_refl ltac:(discriminate) "DESC" (-1)
           (or_intror (conj eq_refl eq_refl)) eq_refl)).
Defined.

(** X8 at [name=a&_start=0&color=red] with fields name and color. *)
Lemma unknown_parameters_ignored_witness :
  buildFilter noRegExpError ["name"; "color"]
    [("name", "a"); ("_start", "0"); ("color", "red")]
  = buildFilter noRegExpError ["name"; "color"]
      [("name", "a"); ("color", "red")].
Proof.
  exact (proj1 (unknown_parameters_ignored noRegExpError ["name"; "color"]
                  [("name", "a")] [("color", "red")] "_start" "0" eq_refl)).
Defined.

(** X9 at [name=(] with an engine that refuses an open parenthesis. *)
Lemma invalid_pattern_forwarded_witness :
  exists e' g val',
    get [("name", "(")] g = Some val' /\ parenError val' = Some e'
    /\ getAllHandler parenError sampleResource emptyMiddleware
         (sampleRequest [("name", "(")])
       = (sampleRequest [("name", "(")], SNextErr e').
Proof.
  destruct (invalid_pattern_forwarded parenError sampleResource emptyMiddleware
              (sampleRequest [("name", "(")]) "name" "("
              (mkError None "Unterminated group")
              eq_refl eq_refl eq_refl eq_refl eq_refl)
    as (e' & g & val' & H1 & H2 & H3 & _).
  exists e', g, val'. auto.
Defined.

(** X10 with a before list [all; nowhere] and no extension: the entry for
    /nowhere changes nothing. *)
Lemma unmatched_entry_is_inert_witness :
  run_buildRoutes sampleResource
    {| extensions := None; before := Some [allRoute; unmatchedRoute];
       after := None |}
  = run_buildRoutes sampleResource
      (withBefore {| extensions := None;
                     before := Some [allRoute; unmatchedRoute]; after := None |}
                  ([allRoute] ++ [])).
Proof.
  refine (proj1 (unmatched_entry_is_inert sampleResource
                   {| extensions := None;
                      before := Some [allRoute; unmatchedRoute]; after := None |}
                   [allRoute] [] unmatchedRoute _ _ _) eq_refl).
  - split; [exists "get"; split; [now left | reflexivity] | split; reflexivity].
  - intros ex [].
  - intros m p H. simpl in H.
    destruct H as [E|[E|[E|[E|[E|[]]]]]]; injection E as <- <-; reflexivity.
Defined.

(** X11 with an after list holding two entries for (get, /all): the second
    changes nothing. *)
Lemma shadowed_entry_is_inert_witness :
  run_buildRoutes sampleResource
    {| extensions := None; before := None;
       after := Some [allRoute; shadowedRoute] |}
  = run_buildRoutes sampleResource
      (withAfter {| extensions := None; before := None;
                    after := Some [allRoute; shadowedRoute] |}
                 ([allRoute] ++ [])).
Proof.
  refine (proj2 (shadowed_entry_is_inert sampleResource
                   {| extensions := None; before := None;
                      after := Some [allRoute; shadowedRoute] |}
                   [allRoute] [] shadowedRoute allRoute _ _ eq_refl eq_refl)
                eq_refl).
  - split; [exists "get"; split; [now left | reflexivity] | split; reflexivity].
  - now left.
Defined.

(** X12 with a before entry for (get, new String("/all")): it passes
    validation and the List slot still gets the pass-through handler. *)
Lemma string_object_route_never_resolves_witness :
  validateRoutes [stringObjectRoute] = Ok tt
  /\ extractMiddleware [stringObjectRoute] (VStr "get") (VStr "/all")
     = emptyMiddleware.
Proof.
  split; [reflexivity|].
  refine (proj1 (string_object_route_never_resolves sampleResource
                   [stringObjectRoute] [] _) (VStr "get") "/all").
  intros r [<-|[]]. reflexivity.
Defined.

(** X13 at the Delete factory on the sample model, whose removal rejects:
    the error is forwarded, where the Delete action of [buildRoutes] is
    silent. *)
Lemma factory_never_silent_witness :
  factory noRegExpError hex24 delete sampleModel None None (sampleRequest [])
  = (sampleRequest [], SNextErr (mkError None "CastError")).
Proof.
  exact (proj1 (proj2 (factory_never_silent noRegExpError hex24 delete
                         sampleModel None None (sampleRequest [])))
           sampleModel (mkError None "CastError") eq_refl eq_refl).
Defined.

(** X14 with the tenant modifier on a request without a tenant. *)
Lemma modifier_scopes_the_model_witness :
  factory noRegExpError hex24 getSingle sampleModel (Some tenantArgs) None
    (sampleRequest [])
  = (sampleRequest [], SNextErr (mkError None "no tenant")).
Proof.
  exact (proj2 (modifier_scopes_the_model noRegExpError hex24 getSingle
                  sampleModel tenantArgs tenantModifier None (sampleRequest [])
                  (sampleRequest []) eq_refl)
           (mkError None "no tenant") eq_refl).
Defined.

(** X15 at an identifier of 24 digits: it is entered as a number. *)
Lemma identifier_comes_third_witness :
  filterValueOfId noRegExpError hex24 "123456789012345678901234"
  = Ok (QPlain (FNumber (Number "123456789012345678901234")))
  /\ filterValueOfId noRegExpError hex24 "5f8d0d55b54764421b7156c3"
     = Ok (QObjectId "5f8d0d55b54764421b7156c3").
Proof.
  split.
  - exact (proj1 (identifier_comes_third noRegExpError hex24
                    "123456789012345678901234") eq_refl).
  - exact (proj1 (proj2 (proj2 (identifier_comes_third noRegExpError hex24
                    "5f8d0d55b54764421b7156c3"))) eq_refl eq_refl eq_refl).
Defined.

(** X16 at [name=b] on the sample model: factory and action send the same. *)
Lemma factory_agrees_with_action_witness :
  run_stage noRegExpError
    (SAction getAll (asResource sampleModel) emptyMiddleware)
    (sampleRequest [("name", "b")])
  = factory noRegExpError hex24 getAll sampleModel None (Some emptyMiddleware)
      (sampleRequest [("name", "b")]).
Proof.
  refine (proj1 (factory_agrees_with_action noRegExpError hex24 getAll
                   sampleModel emptyMiddleware (sampleRequest [("name", "b")]) _)
            _ _ _ _).
  - intros k v [E|[]]. injection E as <- <-. reflexivity.
  - reflexivity.
  - intros e. discriminate.
Defined.

(** X17 at GET /single/42 on the router built without arguments. *)
Lemma default_slots_routing_witness :
  dispatch noRegExpError sampleMatcher
           (fst (run_buildRoutes sampleResource noArgs))
           "get" "/single/42" (sampleRequest [])
  = (res_send DNull (sampleRequest []), SEnd).
Proof.
  refine (eq_trans
            (proj1 (proj2 (default_slots_routing noRegExpError sampleMatcher
                             sampleResource noArgs "/single/42" [("id", "42")]
                             (sampleRequest []) eq_refl eq_refl eq_refl))
               eq_refl eq_refl) _).
  reflexivity.
Defined.

(** X18 with one extension for (get, /all) that marks the response and
    passes on: the List action answers, after the mark. *)
Lemma extension_falls_through_witness :
  dispatch noRegExpError sampleMatcher
    (fst (run_buildRoutes sampleResource
            {| extensions := Some [passingRoute]; before := None;
               after := None |}))
    "get" "/all" (sampleRequest [])
  = (res_send (DArray sampleDocs)
       (res_header "X-Total-Count" 5
          (res_header "X-Seen" 1 (set_params [] (sampleRequest [])))), SEnd).
Proof.
  rewrite (extension_falls_through noRegExpError sampleMatcher sampleResource
             {| extensions := Some [passingRoute]; before := None;
                after := None |}
             [] [] passingRoute [] (sampleRequest [])
             (res_header "X-Seen" 1 (set_params [] (sampleRequest [])))
             eq_refl eq_refl eq_refl eq_refl eq_refl eq_refl
             (conj eq_refl eq_refl)
             (fun x (H : In x []) => match H with end) eq_refl).
  reflexivity.
Defined.

(** X19 at the Create factory given [false]: the created record is sent. *)
Lemma factory_default_sends_witness :
  factory noRegExpError hex24 post sampleModel None (Some (VBool false))
    (sampleRequest [])
  = (res_send (DDoc []) (sampleRequest []), SEnd).
Proof.
  exact (proj1 (proj2 (proj2
           (factory_default_sends noRegExpError hex24 post sampleModel None
              (VBool false) (sampleRequest []) (or_introl eq_refl))))
           sampleModel (DDoc []) eq_refl eq_refl).
Defined.
